(** * Parabol: the voteForReflectionGroup resolver, the User.updatedAt
      migration, the spotlight column hook and the Slack stage-timer toggle.

    A shallow embedding of four source files:
    - packages/server/graphql/mutations/voteForReflectionGroup.ts
    - the PostgreSQL migration that installs the [update_User_updatedAt] trigger
    - the [useSpotlightColumns] hook
    - the [StageTimerModalEndTimeSlackToggle] component

    Maps keyed by document id are stdpp [gmap]s, JS numbers that only ever
    hold integers are [Z], nullable values are [option]. *)

From Stdlib Require Import ZArith Lia.
From stdpp Require Import gmap strings list fin_maps sorting.

Local Open Scope string_scope.
Local Open Scope Z_scope.

(** ** The few JavaScript primitives the sources rely on *)
Module Js.

(** [!!s] for a nullable string: [null] and the empty string are falsy. *)
Definition truthy_string (s : option string) : bool :=
  match s with
  | None => false
  | Some s => negb (String.eqb s "")
  end.

(** [Math.floor(a / b)] and [Math.ceil(a / b)] on integers with [0 < b]. *)
Definition floor_div (a b : Z) : Z := a / b.
Definition ceil_div (a b : Z) : Z := - ((- a) / b).

End Js.

(** ** voteForReflectionGroup *)
Module Vote.

(** *** Documents *)

Record Stage := mkStage {
  stage_id : string;
  isComplete : bool;
  isNavigable : bool;
  isNavigableByFacilitator : bool
}.

Record Phase := mkPhase {
  phaseType : string;
  stages : list Stage
}.

Record ReflectionGroup := mkReflectionGroup {
  group_id : string;
  isActive : bool;
  group_meetingId : string;
  voterIds : list string
}.

Record MeetingRetrospective := mkMeeting {
  meeting_id : string;
  endedAt : option Z;
  phases : list Phase;
  maxVotesPerGroup : Z;
  teamId : string;
  (* every other field of the document, by name *)
  otherFields : list (string * string)
}.

Record MeetingMember := mkMeetingMember {
  member_meetingId : string;
  member_userId : string;
  votesRemaining : Z
}.

(** The three RethinkDB tables the resolver touches. *)
Record DB := mkDB {
  RetroReflectionGroup : gmap string ReflectionGroup;
  NewMeeting : gmap string MeetingRetrospective;
  MeetingMemberTable : list MeetingMember
}.

(** *** Payloads *)

Record SubOptions := mkSubOptions {
  operationId : string;
  mutatorId : string
}.

Record VoteData := mkVoteData {
  data_meetingId : string;
  data_userId : string;
  data_reflectionGroupId : string;
  (* [undefined] when no unlock or lock happened *)
  data_unlockedStageIds : option (list string)
}.

Record StandardError := mkStandardError { message : string }.

Inductive Payload :=
| ErrorPayload (error : StandardError)
| VoteForReflectionGroupPayload (data : VoteData).

(** [SubscriptionChannel] of parabol-client/types/constEnums, one channel per
    kind of subscription; the resolver publishes on [MEETING]. *)
Inductive SubscriptionChannel := MEETING | NOTIFICATION | ORGANIZATION | TASK | TEAM.

(** *** Operations on the database, the loader and the publisher, in program order *)
Inductive Event :=
| EvGetUserId
| EvGet (table key : string)
| EvIsTeamMember (team : string) (ok : bool)
| EvMeetingMemberQuery (meetingId userId : string)
| EvSafelyWithdrawVote (meetingId userId reflectionGroupId : string)
| EvSafelyCastVote (meetingId userId reflectionGroupId : string) (maxVotes : Z)
| EvLoad (loader key : string)
| EvUpdatePhases (meetingId : string) (written : list Phase)
| EvPublish (channel : SubscriptionChannel) (channelId type : string)
            (data : VoteData) (subOptions : SubOptions).

Definition is_publish (e : Event) : bool :=
  match e with EvPublish _ _ _ _ _ => true | _ => false end.

Definition is_write (e : Event) : bool :=
  match e with
  | EvUpdatePhases _ _ | EvSafelyWithdrawVote _ _ _ | EvSafelyCastVote _ _ _ _ => true
  | _ => false
  end.

Definition is_update (e : Event) : bool :=
  match e with EvUpdatePhases _ _ => true | _ => false end.



(** *** Ordering of a log *)







(** *** Reads before the team check *)








(** *** The resolver monad: database, event log, early return, exception *)

Record World := mkWorld {
  db : DB;
  log : list Event
}.

Inductive Step (A : Type) :=
| Next (a : A)
| Return (p : Payload)
| Throw (err : string).
Arguments Next {A} a.
Arguments Return {A} p.
Arguments Throw {A} err.

Definition M (A : Type) : Type := World → Step A * World.

#[export] Instance M_ret : MRet M := λ A a w, (Next a, w).
#[export] Instance M_bind : MBind M := λ A B f m w,
  match m w with
  | (Next a, w') => f a w'
  | (Return p, w') => (Return p, w')
  | (Throw e, w') => (Throw e, w')
  end.

Definition emit (e : Event) : M unit :=
  λ w, (Next tt, mkWorld (db w) (log w ++ [e])).

Definition readDB : M DB := λ w, (Next (db w), w).

Definition writeDB (d : DB) : M unit := λ w, (Next tt, mkWorld d (log w)).

Definition return_ {A} (p : Payload) : M A := λ w, (Return p, w).

Definition throw {A} (err : string) : M A := λ w, (Throw err, w).

(** [if (c) return p] *)
Definition return_if (c : bool) (p : Payload) : M unit :=
  if c then return_ p else mret tt.

(** Modelled from the spec: [standardError] (server/utils/standardError) is
    not among the sources.  Resolvers "validate a request"; a request that
    does not pass is answered with an error payload carrying the message. *)
Definition standardError (msg : string) : Payload :=
  ErrorPayload (mkStandardError msg).

(** [r.table('NewMeeting').get(id).update({phases})]: merges the one field
    into the document when it exists. *)
Definition set_phases (ph : list Phase) (m : MeetingRetrospective) : MeetingRetrospective :=
  mkMeeting (meeting_id m) (endedAt m) ph (maxVotesPerGroup m) (teamId m) (otherFields m).

Definition update_phases (meetingId : string) (ph : list Phase) (d : DB) : DB :=
  mkDB (RetroReflectionGroup d) (alter (set_phases ph) meetingId (NewMeeting d))
       (MeetingMemberTable d).

(** [.getAll(meetingId, {index: 'meetingId'}).filter({userId}).nth(0).default(null)] *)
Definition meetingMemberOf (meetingId userId : string) (d : DB) : option MeetingMember :=
  List.find (λ m, String.eqb (member_meetingId m) meetingId
                  && String.eqb (member_userId m) userId)
            (MeetingMemberTable d).

(** [reflectionGroups.reduce((sum, group) => sum + group.voterIds.length, 0)] *)
Definition voteCount (reflectionGroups : list ReflectionGroup) : Z :=
  fold_left (λ (sum : Z) (group : ReflectionGroup), sum + Z.of_nat (length (voterIds group)))
            reflectionGroups 0.

(** The tally as the specification words it: the sum, over all groups, of the
    number of voter ids of the group. *)
Definition sum_of_votes (reflectionGroups : list ReflectionGroup) : Z :=
  foldr Z.add 0 (map (λ group, Z.of_nat (length (voterIds group))) reflectionGroups).

(** [phases.find((phase) => phase.phaseType === 'discuss')] *)
Definition findPhase (ty : string) (ps : list Phase) : option Phase :=
  List.find (λ phase, String.eqb (phaseType phase) ty) ps.

Definition setStageNavigable (isForFacilitator isUnlock : bool) (s : Stage) : Stage :=
  if isForFacilitator
  then mkStage (stage_id s) (isComplete s) (isNavigable s) isUnlock
  else mkStage (stage_id s) (isComplete s) isUnlock (isNavigableByFacilitator s).

(** Modelled from the spec: [unlockAllStagesForPhase]
    (parabol-client/utils/unlockAllStagesForPhase) is not among the sources.
    Phases carry "navigability flags"; unlocking (locking) a phase sets the
    flag of every stage of the first phase of the given type, in place, and
    yields the ids of those stages; with no such phase nothing changes and no
    id is returned.  The second component is the phase array after the
    in-place mutation. *)
Fixpoint unlockAllStagesForPhase (ps : list Phase) (ty : string)
    (isForFacilitator isUnlock : bool) : list string * list Phase :=
  match ps with
  | [] => ([], [])
  | p :: rest =>
      if String.eqb (phaseType p) ty
      then (map stage_id (stages p),
            mkPhase (phaseType p)
                    (map (setStageNavigable isForFacilitator isUnlock) (stages p)) :: rest)
      else let '(ids, rest') := unlockAllStagesForPhase rest ty isForFacilitator isUnlock in
           (ids, p :: rest')
  end.

(** Lines 103-118: [isUnlock] stays [undefined] ([None]), or becomes [true] or
    [false].  Destructuring a missing discuss phase or a missing first stage
    raises a TypeError ([inl]). *)
Definition decideUnlock (isUnvote : bool) (ps : list Phase) (count : Z)
    : string + option bool :=
  if negb isUnvote then
    match findPhase "discuss" ps with
    | None => inl "TypeError"
    | Some discussPhase =>
        match stages discussPhase with
        | [] => inl "TypeError"
        | firstStage :: _ =>
            if negb (isNavigableByFacilitator firstStage)
            then inr (Some true) else inr None
        end
    end
  else if count =? 0 then inr (Some false)
  else inr None.

(** The first stage of the discuss phase, when there is one. *)
Definition firstDiscussStage (ps : list Phase) : option Stage :=
  match findPhase "discuss" ps with
  | Some discussPhase => head (stages discussPhase)
  | None => None
  end.

Definition orThrow {A} (r : string + A) : M A :=
  match r with
  | inl err => throw err
  | inr a => mret a
  end.

Section Resolver.

(** Helpers of the repository that are not among the sources. *)
Context {AuthToken : Type}.
Variable getUserId : AuthToken → string.
Variable isTeamMember : AuthToken → string → bool.
Variable VOTE : string.
Variable isPhaseComplete : string → list Phase → bool.
Variable safelyWithdrawVote :
  AuthToken → string → string → string → DB → option StandardError * DB.
Variable safelyCastVote :
  AuthToken → string → string → string → Z → DB → option StandardError * DB.
Variable retroReflectionGroupsByMeetingId : DB → string → list ReflectionGroup.

Record GQLContext := mkContext {
  authToken : AuthToken;
  dataLoader_share : string;
  socketId : string
}.

(** [r.table('RetroReflectionGroup').get(id).run()] *)
Definition getReflectionGroup (id : string) : M (option ReflectionGroup) :=
  emit (EvGet "RetroReflectionGroup" id);;
  d ← readDB;
  mret (RetroReflectionGroup d !! id).

(** [r.table('NewMeeting').get(id).run()] *)
Definition getMeeting (id : string) : M (option MeetingRetrospective) :=
  emit (EvGet "NewMeeting" id);;
  d ← readDB;
  mret (NewMeeting d !! id).

Definition queryMeetingMember (meetingId userId : string) : M (option MeetingMember) :=
  emit (EvMeetingMemberQuery meetingId userId);;
  d ← readDB;
  mret (meetingMemberOf meetingId userId d).

(** [dataLoader.get('retroReflectionGroupsByMeetingId').load(meetingId)] *)
Definition loadReflectionGroups (meetingId : string) : M (list ReflectionGroup) :=
  emit (EvLoad "retroReflectionGroupsByMeetingId" meetingId);;
  d ← readDB;
  mret (retroReflectionGroupsByMeetingId d meetingId).

(** The [if (isUnvote) ... else ...] of lines 77-94, as a database transformer. *)
Definition castOrWithdraw (isUnvote : bool) (tok : AuthToken)
    (meetingId viewerId reflectionGroupId : string) (maxVotes : Z) (d : DB)
    : option StandardError * DB :=
  if isUnvote
  then safelyWithdrawVote tok meetingId viewerId reflectionGroupId d
  else safelyCastVote tok meetingId viewerId reflectionGroupId maxVotes d.

Definition voteStep (isUnvote : bool) (tok : AuthToken)
    (meetingId viewerId reflectionGroupId : string) (maxVotes : Z) : M unit :=
  emit (if isUnvote
        then EvSafelyWithdrawVote meetingId viewerId reflectionGroupId
        else EvSafelyCastVote meetingId viewerId reflectionGroupId maxVotes);;
  d ← readDB;
  let '(votingError, d') :=
    castOrWithdraw isUnvote tok meetingId viewerId reflectionGroupId maxVotes d in
  writeDB d';;
  match votingError with
  | Some e => return_ (ErrorPayload e)
  | None => mret tt
  end.

(** Lines 119-128. *)
Definition applyUnlock (meetingId : string) (ps : list Phase) (isUnlock : option bool)
    : M (option (list string)) :=
  match isUnlock with
  | None => mret None
  | Some u =>
      let '(ids, ps') := unlockAllStagesForPhase ps "discuss" true u in
      emit (EvUpdatePhases meetingId ps');;
      d ← readDB;
      writeDB (update_phases meetingId ps' d);;
      mret (Some ids)
  end.

Definition resolve (arg_isUnvote : option bool) (reflectionGroupId : string)
    (ctx : GQLContext) : M Payload :=
  let isUnvote := default false arg_isUnvote in
  let subOptions := mkSubOptions (dataLoader_share ctx) (socketId ctx) in
  (* AUTH *)
  emit EvGetUserId;;
  let viewerId := getUserId (authToken ctx) in
  found ← getReflectionGroup reflectionGroupId;
  match found with
  | None => return_ (standardError "Reflection group not found")
  | Some reflectionGroup =>
  return_if (negb (isActive reflectionGroup))
            (standardError "Reflection group not found");;
  let meetingId := group_meetingId reflectionGroup in
  fetched ← getMeeting meetingId;
  match fetched with
  | None => throw "TypeError"
  | Some meeting =>
  let ok := isTeamMember (authToken ctx) (teamId meeting) in
  emit (EvIsTeamMember (teamId meeting) ok);;
  return_if (negb ok) (standardError "Team not found");;
  return_if (bool_decide (is_Some (endedAt meeting)))
            (standardError "Meeting already ended");;
  return_if (isPhaseComplete VOTE (phases meeting))
            (standardError "Meeting phase already completed");;
  (* VALIDATION *)
  meetingMember ← queryMeetingMember meetingId viewerId;
  return_if (bool_decide (meetingMember = None))
            (standardError "Meeting member not found");;
  (* RESOLUTION *)
  voteStep isUnvote (authToken ctx) meetingId viewerId reflectionGroupId
           (maxVotesPerGroup meeting);;
  reflectionGroups ← loadReflectionGroups meetingId;
  isUnlock ← orThrow (decideUnlock isUnvote (phases meeting) (voteCount reflectionGroups));
  unlockedStageIds ← applyUnlock meetingId (phases meeting) isUnlock;
  let data := mkVoteData meetingId viewerId reflectionGroupId unlockedStageIds in
  emit (EvPublish MEETING meetingId "VoteForReflectionGroupPayload" data subOptions);;
  return_ (VoteForReflectionGroupPayload data)
  end end.

(** What a caller of the resolver observes. *)
Inductive Outcome :=
| Returned (p : Payload)
| Threw (err : string).

Record Run := mkRun {
  outcome : Outcome;
  final : DB;
  events : list Event
}.

Definition run (arg_isUnvote : option bool) (reflectionGroupId : string)
    (ctx : GQLContext) (d : DB) : Run :=
  match resolve arg_isUnvote reflectionGroupId ctx (mkWorld d []) with
  | (Next p, w) | (Return p, w) => mkRun (Returned p) (db w) (log w)
  | (Throw e, w) => mkRun (Threw e) (db w) (log w)
  end.

(** Every check of lines 38-74 passes. *)
Record Valid (gid : string) (ctx : GQLContext) (d : DB)
    (g : ReflectionGroup) (m : MeetingRetrospective) : Prop := {
  valid_group : RetroReflectionGroup d !! gid = Some g;
  valid_active : isActive g = true;
  valid_meeting : NewMeeting d !! group_meetingId g = Some m;
  valid_team : isTeamMember (authToken ctx) (teamId m) = true;
  valid_running : endedAt m = None;
  valid_phase : isPhaseComplete VOTE (phases m) = false;
  valid_member : is_Some (meetingMemberOf (group_meetingId g) (getUserId (authToken ctx)) d)
}.

(** The events up to and including the call of the voting helper. *)
Definition prefix (unvote : bool) (gid : string) (ctx : GQLContext)
    (g : ReflectionGroup) (m : MeetingRetrospective) : list Event :=
  [ EvGetUserId;
    EvGet "RetroReflectionGroup" gid;
    EvGet "NewMeeting" (group_meetingId g);
    EvIsTeamMember (teamId m) true;
    EvMeetingMemberQuery (group_meetingId g) (getUserId (authToken ctx));
    if unvote
    then EvSafelyWithdrawVote (group_meetingId g) (getUserId (authToken ctx)) gid
    else EvSafelyCastVote (group_meetingId g) (getUserId (authToken ctx)) gid
                          (maxVotesPerGroup m) ].

Definition loadEvent (g : ReflectionGroup) : Event :=
  EvLoad "retroReflectionGroupsByMeetingId" (group_meetingId g).

Definition publishEvent (gid : string) (ctx : GQLContext) (g : ReflectionGroup)
    (ids : option (list string)) : Event :=
  EvPublish MEETING (group_meetingId g) "VoteForReflectionGroupPayload"
            (mkVoteData (group_meetingId g) (getUserId (authToken ctx)) gid ids)
            (mkSubOptions (dataLoader_share ctx) (socketId ctx)).

(** The request fails one of the five checks of lines 38-74. *)
Inductive ValidationFailure (reflectionGroupId : string) (ctx : GQLContext) (d : DB) : Prop :=
| GroupMissing :
    RetroReflectionGroup d !! reflectionGroupId = None →
    ValidationFailure reflectionGroupId ctx d
| GroupInactive g :
    RetroReflectionGroup d !! reflectionGroupId = Some g →
    isActive g = false →
    ValidationFailure reflectionGroupId ctx d
| NotTeamMember g m :
    RetroReflectionGroup d !! reflectionGroupId = Some g →
    NewMeeting d !! group_meetingId g = Some m →
    isTeamMember (authToken ctx) (teamId m) = false →
    ValidationFailure reflectionGroupId ctx d
| MeetingEnded g m :
    RetroReflectionGroup d !! reflectionGroupId = Some g →
    NewMeeting d !! group_meetingId g = Some m →
    is_Some (endedAt m) →
    ValidationFailure reflectionGroupId ctx d
| VotePhaseComplete g m :
    RetroReflectionGroup d !! reflectionGroupId = Some g →
    NewMeeting d !! group_meetingId g = Some m →
    isPhaseComplete VOTE (phases m) = true →
    ValidationFailure reflectionGroupId ctx d
| NoMeetingMember g m :
    RetroReflectionGroup d !! reflectionGroupId = Some g →
    NewMeeting d !! group_meetingId g = Some m →
    meetingMemberOf (group_meetingId g) (getUserId (authToken ctx)) d = None →
    ValidationFailure reflectionGroupId ctx d.

End Resolver.



Arguments GQLContext : clear implicits.
Arguments mkContext {AuthToken} _ _ _.

(** A concrete set of helpers, used to run the resolver on examples. *)
Module Sample.

Record Token := mkToken { sub : string; tms : list string }.

Definition getUserId (t : Token) : string := sub t.

Definition isTeamMember (t : Token) (team : string) : bool :=
  existsb (String.eqb team) (tms t).

Definition isPhaseComplete (ty : string) (ps : list Phase) : bool :=
  match findPhase ty ps with
  | Some p => forallb isComplete (stages p)
  | None => false
  end.

Definition addVoter (userId : string) (g : ReflectionGroup) : ReflectionGroup :=
  mkReflectionGroup (group_id g) (isActive g) (group_meetingId g) (voterIds g ++ [userId]).

Fixpoint removeOne (userId : string) (l : list string) : list string :=
  match l with
  | [] => []
  | x :: r => if String.eqb x userId then r else x :: removeOne userId r
  end.

Definition dropVoter (userId : string) (g : ReflectionGroup) : ReflectionGroup :=
  mkReflectionGroup (group_id g) (isActive g) (group_meetingId g)
                    (removeOne userId (voterIds g)).

Definition votesOf (userId : string) (g : ReflectionGroup) : Z :=
  Z.of_nat (length (filter (λ v, v = userId) (voterIds g))).

Definition safelyCastVote (_ : Token) (meetingId userId groupId : string) (maxVotes : Z)
    (d : DB) : option StandardError * DB :=
  match RetroReflectionGroup d !! groupId with
  | Some g =>
      if votesOf userId g <? maxVotes
      then (None, mkDB (<[groupId := addVoter userId g]> (RetroReflectionGroup d))
                       (NewMeeting d) (MeetingMemberTable d))
      else (Some (mkStandardError "Max votes per group exceeded"), d)
  | None => (Some (mkStandardError "Max votes per group exceeded"), d)
  end.

Definition safelyWithdrawVote (_ : Token) (meetingId userId groupId : string)
    (d : DB) : option StandardError * DB :=
  match RetroReflectionGroup d !! groupId with
  | Some g =>
      if 0 <? votesOf userId g
      then (None, mkDB (<[groupId := dropVoter userId g]> (RetroReflectionGroup d))
                       (NewMeeting d) (MeetingMemberTable d))
      else (Some (mkStandardError "Vote already withdrawn"), d)
  | None => (Some (mkStandardError "Vote already withdrawn"), d)
  end.

Definition retroReflectionGroupsByMeetingId (d : DB) (meetingId : string)
    : list ReflectionGroup :=
  List.filter (λ g, String.eqb (group_meetingId g) meetingId && isActive g)
              (map snd (map_to_list (RetroReflectionGroup d))).

Definition run := run getUserId isTeamMember "vote" isPhaseComplete
                      safelyWithdrawVote safelyCastVote retroReflectionGroupsByMeetingId.

Definition lockedDiscuss : list Phase :=
  [ mkPhase "vote" [mkStage "v1" false true true];
    mkPhase "discuss" [mkStage "d1" false false false; mkStage "d2" false false false] ].

Definition openDiscuss : list Phase :=
  [ mkPhase "vote" [mkStage "v1" false true true];
    mkPhase "discuss" [mkStage "d1" false false true; mkStage "d2" false false true] ].

Definition voteOnly : list Phase :=
  [ mkPhase "vote" [mkStage "v1" false true true] ].

Definition meeting1 (ps : list Phase) : MeetingRetrospective :=
  mkMeeting "m1" None ps 3 "t1" [("name", "Retro #1"); ("facilitatorUserId", "u1")].

Definition db0 (ps : list Phase) (voters : list string) : DB :=
  mkDB {[ "g1" := mkReflectionGroup "g1" true "m1" voters;
          "g2" := mkReflectionGroup "g2" true "m1" [] ]}
       {[ "m1" := meeting1 ps ]}
       [mkMeetingMember "m1" "u1" 5].

Definition ctx1 : GQLContext Token := mkContext (mkToken "u1" ["t1"]) "op1" "sock1".
Definition outsider : GQLContext Token := mkContext (mkToken "u9" ["t9"]) "op2" "sock2".

End Sample.


End Vote.

(** ** The migration that keeps [User.updatedAt] current *)
Module Migration.

(** *** The fragment of PostgreSQL the two query strings exercise *)

Inductive Value :=
| VNull
| VText (s : string)
| VInt (n : Z)
| VTimestamp (t : Z).

(** A row maps column names to values. *)
Abbreviation Row := (gmap string Value).

(** A PL/pgSQL trigger function, applied to [now()], [OLD] and [NEW]; it
    returns the row to store, or NULL ([None]) to skip the row. *)
Definition TriggerFunction : Type := Z → Row → Row → option Row.

Inductive Timing := BEFORE | AFTER.
Inductive RowEvent := INSERT | UPDATE | DELETE.

(** [CREATE TRIGGER name timing event ON table FOR EACH ROW EXECUTE PROCEDURE f()] *)
Record Trigger := mkTrigger {
  tg_timing : Timing;
  tg_event : RowEvent;
  tg_function : string
}.

Definition is_before_update (t : Trigger) : bool :=
  match tg_timing t, tg_event t with
  | BEFORE, UPDATE => true
  | _, _ => false
  end.

(** The catalog and the data: functions by name, triggers by table and name,
    tables by name. *)
Record Pg := mkPg {
  functions : gmap string TriggerFunction;
  triggers : gmap (string * string) Trigger;
  tables : gmap string (list Row)
}.

(** [CREATE OR REPLACE FUNCTION name() RETURNS TRIGGER ...] over a catalog of
    trigger functions: it creates the function, or replaces the body of the
    trigger function of that name.  (PostgreSQL refuses to replace a function
    that has another return type; this catalog holds no such function.) *)
Definition create_or_replace_function (name : string) (body : TriggerFunction) (pg : Pg)
    : option Pg :=
  Some (mkPg (<[name := body]> (functions pg)) (triggers pg) (tables pg)).

(** [CREATE TRIGGER] fails when the table or the function is missing or the
    table already has a trigger of that name. *)
Definition create_trigger (name : string) (timing : Timing) (ev : RowEvent)
    (table fn : string) (pg : Pg) : option Pg :=
  match tables pg !! table, functions pg !! fn, triggers pg !! (table, name) with
  | Some _, Some _, None =>
      Some (mkPg (functions pg)
                 (<[(table, name) := mkTrigger timing ev fn]> (triggers pg))
                 (tables pg))
  | _, _, _ => None
  end.

(** [DROP TRIGGER name ON table] fails when there is no such trigger. *)
Definition drop_trigger (name table : string) (pg : Pg) : option Pg :=
  match triggers pg !! (table, name) with
  | Some _ => Some (mkPg (functions pg) (delete (table, name) (triggers pg)) (tables pg))
  | None => None
  end.

Definition uses_function (fn : string) (entry : string * string * Trigger) : bool :=
  String.eqb (tg_function entry.2) fn.

(** [DROP FUNCTION name()] (RESTRICT) fails when the function is missing or a
    trigger still depends on it. *)
Definition drop_function (name : string) (pg : Pg) : option Pg :=
  match functions pg !! name with
  | Some _ =>
      if existsb (uses_function name) (map_to_list (triggers pg))
      then None
      else Some (mkPg (delete name (functions pg)) (triggers pg) (tables pg))
  | None => None
  end.

(** Triggers of one table fire in the order of their names. *)
Definition name_le (a b : string * string * Trigger) : Prop :=
  Is_true (String.leb a.1.2 b.1.2).

#[export] Instance name_le_dec a b : Decision (name_le a b).
Proof. unfold name_le. apply _. Defined.

Definition fires_on_update (table : string) (entry : string * string * Trigger) : Prop :=
  entry.1.1 = table ∧ is_before_update entry.2 = true.

#[export] Instance fires_on_update_dec table entry : Decision (fires_on_update table entry).
Proof. unfold fires_on_update. apply _. Defined.

Definition before_update_triggers (table : string) (pg : Pg)
    : list (string * string * Trigger) :=
  merge_sort name_le (filter (fires_on_update table) (map_to_list (triggers pg))).

(** One trigger in the chain: a NULL from an earlier trigger ends the chain. *)
Definition fire (now : Z) (pg : Pg) (old : Row) (acc : option Row)
    (entry : string * string * Trigger) : option Row :=
  match acc with
  | None => None
  | Some new =>
      match functions pg !! tg_function entry.2 with
      | Some f => f now old new
      | None => Some new
      end
  end.

(** [SET c1 = e1, c2 = e2, ...]: every expression reads the old row. *)
Definition assign (set : list (string * (Row → Value))) (old : Row) : Row :=
  foldl (λ (new : Row) (a : string * (Row → Value)), <[a.1 := a.2 old]> new) old set.

Definition update_row (now : Z) (pg : Pg) (table : string)
    (set : list (string * (Row → Value))) (where_ : Row → bool) (old : Row) : Row :=
  if where_ old then
    match foldl (fire now pg old) (Some (assign set old)) (before_update_triggers table pg) with
    | Some new => new
    | None => old
    end
  else old.

(** [UPDATE table SET ... WHERE ...] at transaction time [now]. *)
Definition update (now : Z) (table : string) (set : list (string * (Row → Value)))
    (where_ : Row → bool) (pg : Pg) : option Pg :=
  match tables pg !! table with
  | Some rows =>
      Some (mkPg (functions pg) (triggers pg)
                 (<[table := map (update_row now pg table set where_) rows]> (tables pg)))
  | None => None
  end.

(** *** The migration *)

(** [NEW."updatedAt" = now(); RETURN NEW;] *)
Definition set_updatedAt : TriggerFunction :=
  λ now _ new, Some (<["updatedAt" := VTimestamp now]> new).

(** Both statements of a query string run in one implicit transaction: when
    one fails the query is rejected ([None]) and nothing is changed. *)
Definition up (pg : Pg) : option Pg :=
  pg1 ← create_or_replace_function "set_updatedAt" set_updatedAt pg;
  create_trigger "update_User_updatedAt" BEFORE UPDATE "User" "set_updatedAt" pg1.

Definition down (pg : Pg) : option Pg :=
  pg1 ← drop_trigger "update_User_updatedAt" "User" pg;
  drop_function "set_updatedAt" pg1.

Definition has_function (name : string) (pg : Pg) : Prop :=
  is_Some (functions pg !! name).

Definition has_trigger (name table : string) (pg : Pg) : Prop :=
  is_Some (triggers pg !! (table, name)).

(** PostgreSQL keeps the catalog closed: a trigger's function exists. *)
Definition catalog_closed (pg : Pg) : Prop :=
  ∀ key tg, triggers pg !! key = Some tg → is_Some (functions pg !! tg_function tg).

(** The schema before the migration: the [User] table is there, the two
    objects of the migration are not. *)
Record pre_migration (pg : Pg) : Prop := {
  pre_table : is_Some (tables pg !! "User");
  pre_closed : catalog_closed pg;
  pre_no_function : functions pg !! "set_updatedAt" = None;
  pre_no_trigger : triggers pg !! ("User", "update_User_updatedAt") = None
}.

(** No BEFORE UPDATE row trigger is attached to the table. *)
Definition no_before_update_trigger (table : string) (pg : Pg) : Prop :=
  ∀ name tg, triggers pg !! (table, name) = Some tg → is_before_update tg = false.

(** Sample databases. *)
Definition alice : Row :=
  {[ "id" := VText "u1"; "email" := VText "alice@example.com"; "updatedAt" := VTimestamp 5 ]}.

Definition pg0 : Pg := mkPg ∅ ∅ {[ "User" := [alice] ]}.

(** [pg0] after the migration. *)
Definition pg0_up : Pg :=
  mkPg {[ "set_updatedAt" := set_updatedAt ]}
       {[ ("User", "update_User_updatedAt") := mkTrigger BEFORE UPDATE "set_updatedAt" ]}
       {[ "User" := [alice] ]}.

(** [set_updatedAt] is already there and serves a trigger of another table. *)
Definition pg_shared : Pg :=
  mkPg {[ "set_updatedAt" := set_updatedAt ]}
       {[ ("Team", "update_Team_updatedAt") := mkTrigger BEFORE UPDATE "set_updatedAt" ]}
       {[ "User" := [alice]; "Team" := [] ]}.

End Migration.

(** ** useSpotlightColumns *)
Module Spotlight.

(** The hook's [columns] state and the [maxSpotlightColumns] field of the
    viewer record in the local store ([None] when there is no viewer record). *)
Record HookState := mkHookState {
  columns : option (list Z);
  viewer_maxSpotlightColumns : option (option Z)
}.

(** [[...Array(n).keys()]] *)
Definition keys (n : Z) : list Z := map Z.of_nat (seq 0 (Z.to_nat n)).

(** [viewer?.setValue(columnsCount, 'maxSpotlightColumns')] *)
Definition setMaxSpotlightColumns (n : Z) (viewer : option (option Z)) : option (option Z) :=
  match viewer with
  | Some _ => Some (Some n)
  | None => None
  end.

Section Hook.

(** [ElementWidth.MEETING_CARD_WITH_MARGIN], a constant of types/constEnums. *)
Variable MEETING_CARD_WITH_MARGIN : Z.

Definition maxColumnsLargeScreen : Z := 3.
Definition minColumns : Z := 1.
Definition minGroupsPerColumn : Z := 2.

Definition maxColumnsInRef (width : Z) : Z :=
  Js.floor_div width MEETING_CARD_WITH_MARGIN.

Definition maxColumns (width : Z) : Z :=
  Z.max (Z.min (maxColumnsInRef width) maxColumnsLargeScreen) minColumns.

Definition groupsPerColumn (width groupsCount : Z) : Z :=
  Js.ceil_div groupsCount (maxColumns width).

Definition columnsCount (width groupsCount : Z) : Z :=
  if (groupsPerColumn width groupsCount <? minGroupsPerColumn)
     && negb (maxColumns width =? minColumns)
  then maxColumns width - 1
  else maxColumns width.

(** [getColumns], with [clientWidth] the value of [el?.clientWidth]:
    [undefined] ([None]) without an element, else a number. *)
Definition getColumns (clientWidth : option Z) (groupsCount : Z) (st : HookState)
    : HookState :=
  match clientWidth with
  | None => st
  | Some width =>
      if width =? 0 then st
      else if groupsCount <=? 2 then mkHookState (Some [0]) (viewer_maxSpotlightColumns st)
      else
        let newColumns := keys (columnsCount width groupsCount) in
        mkHookState (Some newColumns)
                    (setMaxSpotlightColumns (columnsCount width groupsCount)
                                            (viewer_maxSpotlightColumns st))
  end.

End Hook.

End Spotlight.

(** ** StageTimerModalEndTimeSlackToggle *)
Module SlackToggle.

Record SlackNotification := mkNotification {
  channelId : option string;
  event : string
}.

Record Slack := mkSlack {
  slack_isActive : bool;
  defaultTeamChannelId : string;
  slack_notifications : list SlackNotification
}.

Record Mattermost := mkMattermost { mattermost_isActive : bool }.

Record Integrations := mkIntegrations {
  mattermost : option Mattermost;
  slack : option Slack
}.

Record Facilitator := mkFacilitator {
  integrations : Integrations;
  teamId : string
}.

Record SetSlackNotificationMutationVariables := mkVariables {
  slackChannelId : option string;
  slackNotificationEvents : list string;
  var_teamId : string
}.

(** What a click does, in order. *)
Inductive Effect :=
| SubmitMutation
| SetSlackNotificationMutation (variables : SetSlackNotificationMutationVariables)
| OpenOAuth (team : string).

(** [slack?.notifications ?? []] *)
Definition notifications (f : Facilitator) : list SlackNotification :=
  match slack (integrations f) with
  | Some s => slack_notifications s
  | None => []
  end.

Definition timeLimitEvent (f : Facilitator) : option SlackNotification :=
  List.find (λ notification, String.eqb (event notification) "MEETING_STAGE_TIME_LIMIT_START")
            (notifications f).

(** [(timeLimitEvent && !!timeLimitEvent.channelId) || false] *)
Definition slackToggleActive (f : Facilitator) : bool :=
  match timeLimitEvent f with
  | Some n => Js.truthy_string (channelId n)
  | None => false
  end.

(** [slack?.isActive] *)
Definition slackIsActive (f : Facilitator) : bool :=
  match slack (integrations f) with
  | Some s => slack_isActive s
  | None => false
  end.

Definition onClick (f : Facilitator) (submitting : bool) : list Effect :=
  match slack (integrations f) with
  | Some s =>
      if slack_isActive s then
        if submitting then []
        else
          let variables :=
            mkVariables (if slackToggleActive f then None else Some (defaultTeamChannelId s))
                        ["MEETING_STAGE_TIME_LIMIT_START"] (teamId f) in
          [SubmitMutation; SetSlackNotificationMutation variables]
      else [OpenOAuth (teamId f)]
  | None => [OpenOAuth (teamId f)]
  end.

(** The toggle as the specification words it: some notification for the
    event carries a channel id that is not null. *)
Definition has_time_limit_channel (f : Facilitator) : Prop :=
  ∃ n, n ∈ notifications f
       ∧ event n = "MEETING_STAGE_TIME_LIMIT_START"
       ∧ channelId n ≠ None.

(** [n] is the first notification of [l] for the event [ev]. *)
Definition first_for (ev : string) (l : list SlackNotification) (n : SlackNotification)
    : Prop :=
  ∃ l1 l2, l = (l1 ++ n :: l2)%list ∧ event n = ev ∧ Forall (λ x, event x ≠ ev) l1.

(** Two notifications for the event; only the second has a channel. *)
Definition shadowed : Facilitator :=
  mkFacilitator
    (mkIntegrations None
       (Some (mkSlack true "C-team"
                [ mkNotification None "MEETING_STAGE_TIME_LIMIT_START";
                  mkNotification (Some "C-123") "MEETING_STAGE_TIME_LIMIT_START" ])))
    "team1".

(** One notification for the event, with the empty string as channel id. *)
Definition blank : Facilitator :=
  mkFacilitator
    (mkIntegrations None
       (Some (mkSlack true "C-team"
                [ mkNotification (Some "") "MEETING_STAGE_TIME_LIMIT_START" ])))
    "team1".

Definition subscribed : Facilitator :=
  mkFacilitator
    (mkIntegrations None
       (Some (mkSlack true "C-team"
                [ mkNotification (Some "C-9") "meetingStart";
                  mkNotification (Some "C-123") "MEETING_STAGE_TIME_LIMIT_START" ])))
    "team1".

End SlackToggle.

(** ** Array methods the card bookkeeping uses *)
Module JsArray.

Fixpoint findIndex_from {A} (p : A → bool) (l : list A) (i : Z) : Z :=
  match l with
  | [] => -1
  | x :: r => if p x then i else findIndex_from p r (i + 1)
  end.

(** [l.findIndex(p)]: the index of the first match, [-1] without one. *)
Definition findIndex {A} (p : A → bool) (l : list A) : Z := findIndex_from p l 0.

(** A relative index of [slice]: negative counts from the end, and the result
    is kept within [0 .. len]. *)
Definition clamp (len i : Z) : Z :=
  if i <? 0 then Z.max (len + i) 0 else Z.min i len.

(** [l.slice(start, stop)], [l.slice(start)] for [stop = None]. *)
Definition slice {A} (l : list A) (start : Z) (stop : option Z) : list A :=
  let len := Z.of_nat (length l) in
  let k := clamp len start in
  let final := match stop with Some e => clamp len e | None => len end in
  take (Z.to_nat (Z.max (final - k) 0)) (drop (Z.to_nat k) l).

End JsArray.

(** ** PhaseItemEditor *)
Module PhaseItemEditor.

Definition FLIGHT_TIME : Z := 500.

Section Editor.

(** Pixel coordinates and draft-js editor states are opaque here. *)
Context {Num EditorState : Type}.

(** [EditorState.createWithContent(convertFromRaw(JSON.parse(content)))] *)
Variable createWithContent : string → EditorState.
(** [EditorState.moveFocusToEnd(EditorState.createEmpty())] *)
Variable emptyEditor : EditorState.
(** [editorState.getCurrentContent().hasText()] *)
Variable hasText : EditorState → bool.
(** [JSON.stringify(convertToRaw(editorState.getCurrentContent()))] *)
Variable serialize : EditorState → string.
Variable convertToTaskContent : string → string.

(** The two coordinates read off a bounding box. *)
Record BBox := mkBBox { left : Num; top : Num }.

(** [`translate(${left}px,${top}px)`] *)
Inductive Transform := translate (x y : Num).

Record ReflectColumnCardInFlight := mkCard {
  transform : Transform;
  editorState : EditorState;
  key : string;
  isStart : bool
}.

Record CreateReflectionInput := mkInput {
  content : string;
  meetingId : string;
  promptId : string;
  sortOrder : Num
}.

Inductive Effect :=
| SubmitMutation
| CreateReflectionMutation (input : CreateReflectionInput)
| OpenPortal
| TerminatePortal
| SetCardsInFlight (cards : list ReflectColumnCardInFlight)
| RequestAnimationFrame (content : string) (cardInFlight : ReflectColumnCardInFlight)
| ScheduleRemoval (content : string) (ms : Z)
| SetEditorState (e : EditorState)
| PreventDefault
| EditReflectionMutation (isEditing : bool) (meeting prompt : string)
| SetIsEditing (isEditing : bool)
| ClearIdleTimer
| StartIdleTimer (ms : Z).

Record Props := mkProps {
  props_meetingId : string;
  props_promptId : string
}.

(** What a handler reads from its surroundings: the next value of
    [nextSortOrder()], the two bounding boxes ([None] for a missing element)
    and [cardsInFlightRef.current]. *)
Record Env := mkEnv {
  nextSortOrder : Num;
  phaseEditorBBox : option BBox;
  stackTopBBox : option BBox;
  cardsInFlight : list ReflectColumnCardInFlight
}.

Inductive Completion := Finished | TypeError.

Definition hasKey (k : string) (card : ReflectColumnCardInFlight) : bool :=
  String.eqb (key card) k.

(** The list [removeCardInFlight] passes on once it found the card at [idx]. *)
Definition withoutIndex (current : list ReflectColumnCardInFlight) (idx : Z)
    : list ReflectColumnCardInFlight :=
  JsArray.slice current 0 (Some idx) ++ JsArray.slice current (idx + 1) None.

(** [removeCardInFlight(content)()] *)
Definition removeCardInFlight (k : string) (current : list ReflectColumnCardInFlight)
    : list Effect :=
  let idx := JsArray.findIndex (hasKey k) current in
  if idx =? -1 then []
  else
    let nextCardsInFlight := withoutIndex current idx in
    (if (length nextCardsInFlight =? 0)%nat then [TerminatePortal] else [])
    ++ [SetCardsInFlight nextCardsInFlight].

(** The card at the top of the stack: [{...cardInFlight, isStart: false, transform}]. *)
Definition landing (cardInFlight : ReflectColumnCardInFlight) (box : BBox)
    : ReflectColumnCardInFlight :=
  mkCard (translate (left box) (top box)) (editorState cardInFlight) (key cardInFlight) false.

(** The list the animation-frame callback passes on. *)
Definition withLanded (k : string) (card : ReflectColumnCardInFlight)
    (current : list ReflectColumnCardInFlight) : list ReflectColumnCardInFlight :=
  let idx := JsArray.findIndex (hasKey k) current in
  JsArray.slice current 0 (Some idx) ++ [card] ++ JsArray.slice current (idx + 1) None.

(** The callback given to [requestAnimationFrame] in [handleSubmit]. *)
Definition onAnimationFrame (k : string) (cardInFlight : ReflectColumnCardInFlight)
    (stackBBox : option BBox) (current : list ReflectColumnCardInFlight) : list Effect :=
  match stackBBox with
  | None => []
  | Some box =>
      [ SetCardsInFlight (withLanded k (landing cardInFlight box) current);
        ScheduleRemoval k FLIGHT_TIME ]
  end.

(** The card [handleSubmit] launches from the editor's box. *)
Definition launched (k : string) (box : BBox) : ReflectColumnCardInFlight :=
  mkCard (translate (left box) (top box)) (createWithContent k) k true.

Definition handleSubmit (props : Props) (env : Env) (k : string)
    : list Effect * Completion :=
  let input := mkInput k (props_meetingId props) (props_promptId props) (nextSortOrder env) in
  match phaseEditorBBox env with
  | None => ([SubmitMutation; CreateReflectionMutation input], TypeError)
  | Some box =>
      let cardInFlight := launched k box in
      ([ SubmitMutation;
         CreateReflectionMutation input;
         OpenPortal;
         SetCardsInFlight (cardsInFlight env ++ [cardInFlight]);
         RequestAnimationFrame k cardInFlight;
         SetEditorState emptyEditor ],
       Finished)
  end.





(** *** The editing indicator *)

(** [isEditing] and whether the idle timer of [idleTimerIdRef] is pending. *)
Record Editing := mkEditing {
  isEditing : bool;
  timerPending : bool
}.

Definition ensureNotEditing (props : Props) (st : Editing) : list Effect * Editing :=
  if negb (isEditing st) then ([], st)
  else
    ([ ClearIdleTimer;
       EditReflectionMutation false (props_meetingId props) (props_promptId props);
       SetIsEditing false ],
     mkEditing false false).

Definition ensureEditing (props : Props) (st : Editing) : list Effect * Editing :=
  (((if negb (isEditing st)
     then [ EditReflectionMutation true (props_meetingId props) (props_promptId props);
            SetIsEditing true ]
     else [])
    ++ [ClearIdleTimer; StartIdleTimer 5000])%list,
   mkEditing true true).

(** The callback of the idle timer; it runs only while the timer is pending. *)
Definition idleTimeout (props : Props) (st : Editing) : list Effect * Editing :=
  if timerPending st
  then ([ EditReflectionMutation false (props_meetingId props) (props_promptId props);
          SetIsEditing false ],
        mkEditing false false)
  else ([], st).

(** What happens to the editor: [onFocus] and [keyBindingFn] are
    [ensureEditing], [onBlur] is [ensureNotEditing]. *)
Inductive EditorEvent := Focus | KeyBinding | Blur | IdleTimeout.

Definition step (props : Props) (st : Editing) (e : EditorEvent) : list Effect * Editing :=
  match e with
  | Focus | KeyBinding => ensureEditing props st
  | Blur => ensureNotEditing props st
  | IdleTimeout => idleTimeout props st
  end.

(** Each handler runs on the state the one before it left. *)
Fixpoint steps (props : Props) (st : Editing) (es : list EditorEvent)
    : list Effect * Editing :=
  match es with
  | [] => ([], st)
  | e :: rest =>
      let r := step props st e in
      let r' := steps props r.2 rest in
      ((r.1 ++ r'.1)%list, r'.2)
  end.

Definition initial : Editing := mkEditing false false.

(** The [isEditing] flags of the mutations sent, in order. *)
Fixpoint sentFlags (effects : list Effect) : list bool :=
  match effects with
  | [] => []
  | EditReflectionMutation b _ _ :: rest => b :: sentFlags rest
  | _ :: rest => sentFlags rest
  end.

(** [b], [negb b], [b], ... *)
Fixpoint alternating (b : bool) (l : list bool) : Prop :=
  match l with
  | [] => True
  | x :: rest => x = b ∧ alternating (negb b) rest
  end.


End Editor.

End PhaseItemEditor.

(** ** What StageTimerModalEndTimeSlackToggle renders *)
Module SlackToggleView.
Import SlackToggle.

(** [mattermost?.isActive] *)
Definition mattermostIsActive (f : Facilitator) : bool :=
  match mattermost (integrations f) with
  | Some m => mattermost_isActive m
  | None => false
  end.

(** [!slack?.isActive && !mattermost?.isActive] *)
Definition noActiveIntegrations (f : Facilitator) : bool :=
  negb (slackIsActive f) && negb (mattermostIsActive f).

(** The children of [Block]: the button row with the state of its checkbox,
    when shown, and whether the Mattermost note is shown. *)
Record View := mkView {
  buttonRow : option bool;
  mattermostNote : bool
}.

Definition render (f : Facilitator) : View :=
  mkView (if slackIsActive f || noActiveIntegrations f
          then Some (slackToggleActive f) else None)
         (mattermostIsActive f).

Definition sendsMutation (effects : list Effect) : bool :=
  existsb (λ e, match e with SetSlackNotificationMutation _ => true | _ => false end) effects.

End SlackToggleView.

(** ** More sample databases for the migration *)
Module MigrationSamples.
Import Migration.

(** A function named [set_updatedAt] is there already, with another body and
    serving no trigger. *)
Definition pg_stale : Pg :=
  mkPg {[ "set_updatedAt" := λ _ _ new, Some new ]} ∅ {[ "User" := [alice] ]}.

(** A [Team] table with its own BEFORE UPDATE trigger. *)
Definition touch : TriggerFunction :=
  λ now _ new, Some (<["touchedAt" := VTimestamp now]> new).

Definition pg_team : Pg :=
  mkPg {[ "touch" := touch ]}
       {[ ("Team", "touch_Team") := mkTrigger BEFORE UPDATE "touch" ]}
       {[ "User" := [alice]; "Team" := [ {[ "id" := VText "t1" ]} ] ]}.

(** *** The chain of triggers an UPDATE of one row runs through *)

(** What the BEFORE UPDATE triggers of [table] make of the row [UPDATE]
    assigned: the row to store, or [None] when one of them skips the row. *)
Definition trigger_chain (now : Z) (pg : Pg) (table : string)
    (set : list (string * (Row → Value))) (old : Row) : option Row :=
  foldl (fire now pg old) (Some (assign set old)) (before_update_triggers table pg).

(** A trigger function that leaves alone an [updatedAt] that holds [now()]. *)
Definition keeps_stamp (f : TriggerFunction) : Prop :=
  ∀ now old new r,
    new !! "updatedAt" = Some (VTimestamp now) →
    f now old new = Some r →
    r !! "updatedAt" = Some (VTimestamp now).

(** Every BEFORE UPDATE row trigger of [User] that fires at or after
    [update_User_updatedAt], in the order of names, keeps the stamp. *)
Definition later_triggers_keep_stamp (pg : Pg) : Prop :=
  ∀ name tg f,
    triggers pg !! ("User", name) = Some tg →
    is_before_update tg = true →
    String.leb "update_User_updatedAt" name = true →
    functions pg !! tg_function tg = Some f →
    keeps_stamp f.

(** A [User] table with a trigger that fires after the migration's and sets
    [updatedAt] itself. *)
Definition fix7 : TriggerFunction :=
  λ _ _ new, Some (<["updatedAt" := VTimestamp 7]> new).

Definition pg_zz : Pg :=
  mkPg {[ "fix" := fix7 ]}
       {[ ("User", "zz_fix") := mkTrigger BEFORE UPDATE "fix" ]}
       {[ "User" := [alice] ]}.

Definition pg_zz_up : Pg :=
  mkPg (<["set_updatedAt" := set_updatedAt]> {[ "fix" := fix7 ]})
       (<[("User", "update_User_updatedAt") := mkTrigger BEFORE UPDATE "set_updatedAt"]>
          {[ ("User", "zz_fix") := mkTrigger BEFORE UPDATE "fix" ]})
       {[ "User" := [alice] ]}.

(** A [User] table with one trigger that fires before the migration's and one
    that fires after it; both touch another column. *)
Definition pg_busy : Pg :=
  mkPg {[ "touch" := touch ]}
       (<[("User", "audit_User") := mkTrigger BEFORE UPDATE "touch"]>
          {[ ("User", "zz_touch") := mkTrigger BEFORE UPDATE "touch" ]})
       {[ "User" := [alice] ]}.

Definition pg_busy_up : Pg :=
  mkPg (<["set_updatedAt" := set_updatedAt]> {[ "touch" := touch ]})
       (<[("User", "update_User_updatedAt") := mkTrigger BEFORE UPDATE "set_updatedAt"]>
          (<[("User", "audit_User") := mkTrigger BEFORE UPDATE "touch"]>
             {[ ("User", "zz_touch") := mkTrigger BEFORE UPDATE "touch" ]}))
       {[ "User" := [alice] ]}.

End MigrationSamples.

(** ** Sample cards, with integers for pixels and strings for editor states *)
Module PhaseItemEditorSamples.
Import PhaseItemEditor.

Definition cardA : @ReflectColumnCardInFlight Z string := mkCard (translate 0 0) "a" "A" false.
Definition cardB : @ReflectColumnCardInFlight Z string := mkCard (translate 5 5) "b" "B" true.
Definition env0 : @Env Z string := mkEnv 7 (Some (mkBBox 10 20)) (Some (mkBBox 30 40)) [cardA].

End PhaseItemEditorSamples.

(** * Properties *)

(** ** voteForReflectionGroup *)
Module VoteFacts.
Import Vote.

Lemma voteCount_from (acc : Z) (gs : list ReflectionGroup) :
  fold_left (λ (sum : Z) (group : ReflectionGroup), sum + Z.of_nat (length (voterIds group)))
            gs acc
  = acc + sum_of_votes gs.
Proof.
  unfold sum_of_votes.
  revert acc. induction gs as [|g gs IH]; intros acc; simpl.
  - lia.
  - rewrite IH. lia.
Qed.

(** C5: the tally the resolver computes with [reduce] is the sum, over all
    loaded groups, of the length of the group's [voterIds]; it is zero for
    the empty list of groups. *)
Theorem C5_voteCount_is_sum (reflectionGroups : list ReflectionGroup) :
  voteCount reflectionGroups = sum_of_votes reflectionGroups
  ∧ voteCount [] = 0.
Proof.
  split; [|reflexivity].
  unfold voteCount. rewrite voteCount_from. lia.
Qed.














Ltac unfold_M :=
  unfold getReflectionGroup, getMeeting, queryMeetingMember, loadReflectionGroups,
         voteStep, applyUnlock, orThrow, return_if, return_, throw, emit,
         readDB, writeDB, mbind, M_bind, mret, M_ret in *.

Section Facts.

Context {AuthToken : Type}.
Variable getUserId : AuthToken → string.
Variable isTeamMember : AuthToken → string → bool.
Variable VOTE : string.
Variable isPhaseComplete : string → list Phase → bool.
Variable safelyWithdrawVote :
  AuthToken → string → string → string → DB → option StandardError * DB.
Variable safelyCastVote :
  AuthToken → string → string → string → Z → DB → option StandardError * DB.
Variable retroReflectionGroupsByMeetingId : DB → string → list ReflectionGroup.

Local Abbreviation run :=
  (run getUserId isTeamMember VOTE isPhaseComplete safelyWithdrawVote safelyCastVote
       retroReflectionGroupsByMeetingId).
Local Abbreviation ValidationFailure := (ValidationFailure getUserId isTeamMember VOTE isPhaseComplete).
Local Abbreviation castOrWithdraw := (castOrWithdraw safelyWithdrawVote safelyCastVote).
Local Abbreviation Valid := (Valid getUserId isTeamMember VOTE isPhaseComplete).
Local Abbreviation prefix := (prefix getUserId).
Local Abbreviation publishEvent := (publishEvent getUserId).

Lemma run_failure arg gid ctx d :
  ValidationFailure gid ctx d →
  ∃ msg, run arg gid ctx d = mkRun (Returned (standardError msg)) d
      ([EvGetUserId; EvGet "RetroReflectionGroup" gid]
       ++ match RetroReflectionGroup d !! gid with
          | Some g =>
              if isActive g then
                match NewMeeting d !! group_meetingId g with
                | Some m =>
                  [EvGet "NewMeeting" (group_meetingId g);
                   EvIsTeamMember (teamId m) (isTeamMember (authToken ctx) (teamId m))]
                  ++ (if isTeamMember (authToken ctx) (teamId m)
                         && negb (bool_decide (is_Some (endedAt m)))
                         && negb (isPhaseComplete VOTE (phases m))
                      then [EvMeetingMemberQuery (group_meetingId g) (getUserId (authToken ctx))]
                      else [])
                | None => []
                end
              else []
          | None => []
          end).
Proof.
  intros Hfail. unfold run, resolve. unfold_M. simpl.
  destruct Hfail as [Hg|g Hg Hin|g m Hg Hm Hno|g m Hg Hm Hend|g m Hg Hm Hpc|g m Hg Hm Hmm];
    rewrite Hg; simpl.
  - eauto.
  - rewrite Hin. simpl. eauto.
  - destruct (isActive g); simpl; [|eauto].
    rewrite Hm. simpl. rewrite Hno. simpl. eauto.
  - destruct (isActive g); simpl; [|eauto].
    rewrite Hm. simpl.
    destruct (isTeamMember _ _); simpl; [|eauto].
    rewrite bool_decide_eq_true_2 by done. simpl. eauto.
  - destruct (isActive g); simpl; [|eauto].
    rewrite Hm. simpl.
    destruct (isTeamMember _ _); simpl; [|eauto].
    destruct (bool_decide _); simpl; [eauto|].
    rewrite Hpc. simpl. eauto.
  - destruct (isActive g); simpl; [|eauto].
    rewrite Hm. simpl.
    destruct (isTeamMember _ _); simpl; [|eauto].
    destruct (bool_decide (is_Some _)); simpl; [eauto|].
    destruct (isPhaseComplete _ _); simpl; [eauto|].
    rewrite Hmm. simpl. eauto.
Qed.

(** The run of a request that passes every check, spelled out. *)
Lemma run_valid arg gid ctx d g m :
  Valid gid ctx d g m →
  let unvote := default false arg in
  let mid := group_meetingId g in
  let viewer := getUserId (authToken ctx) in
  let voted := castOrWithdraw unvote (authToken ctx) mid viewer gid (maxVotesPerGroup m) d in
  run arg gid ctx d =
    match voted.1 with
    | Some e => mkRun (Returned (ErrorPayload e)) voted.2 (prefix unvote gid ctx g m)
    | None =>
        match decideUnlock unvote (phases m)
                (voteCount (retroReflectionGroupsByMeetingId voted.2 mid)) with
        | inl err => mkRun (Threw err) voted.2 (prefix unvote gid ctx g m ++ [loadEvent g])
        | inr None =>
            mkRun (Returned (VoteForReflectionGroupPayload (mkVoteData mid viewer gid None)))
                  voted.2
                  (prefix unvote gid ctx g m ++ [loadEvent g; publishEvent gid ctx g None])
        | inr (Some u) =>
            let r := unlockAllStagesForPhase (phases m) "discuss" true u in
            mkRun (Returned (VoteForReflectionGroupPayload
                               (mkVoteData mid viewer gid (Some r.1))))
                  (update_phases mid r.2 voted.2)
                  (prefix unvote gid ctx g m
                   ++ [loadEvent g; EvUpdatePhases mid r.2; publishEvent gid ctx g (Some r.1)])
        end
    end.
Proof.
  intros [Hg Hact Hm Hteam Hend Hpc [mm Hmm]]. simpl.
  unfold run, resolve. unfold_M. simpl.
  rewrite Hg. simpl. rewrite Hact. simpl. rewrite Hm. simpl.
  rewrite Hteam. simpl. rewrite Hend. simpl.
  rewrite Hpc. simpl. rewrite Hmm. simpl.
  destruct (castOrWithdraw _ _ _ _ _ _ _) as [[e|] d1]; simpl; [reflexivity|].
  destruct (decideUnlock _ _ _) as [err|[u|]]; simpl; [reflexivity| |reflexivity].
  destruct (unlockAllStagesForPhase _ _ _ _) as [ids ps']. reflexivity.
Qed.

(** The group record points to a meeting that is not in the table: the
    destructuring of line 55 throws. *)
Lemma run_dangling arg gid ctx d g :
  RetroReflectionGroup d !! gid = Some g →
  isActive g = true →
  NewMeeting d !! group_meetingId g = None →
  run arg gid ctx d =
    mkRun (Threw "TypeError") d
          [EvGetUserId; EvGet "RetroReflectionGroup" gid; EvGet "NewMeeting" (group_meetingId g)].
Proof.
  intros Hg Hact Hm. unfold run, resolve. unfold_M. simpl.
  rewrite Hg. simpl. rewrite Hact. simpl. rewrite Hm. reflexivity.
Qed.

(** Every request fails a check, hits a dangling meeting id, or is valid. *)
Lemma classify gid ctx d :
  ValidationFailure gid ctx d
  ∨ (∃ g, RetroReflectionGroup d !! gid = Some g ∧ isActive g = true
          ∧ NewMeeting d !! group_meetingId g = None)
  ∨ (∃ g m, Valid gid ctx d g m).
Proof.
  destruct (RetroReflectionGroup d !! gid) as [g|] eqn:Hg;
    [|left; by apply GroupMissing].
  destruct (isActive g) eqn:Hact; [|left; by eapply GroupInactive].
  destruct (NewMeeting d !! group_meetingId g) as [m|] eqn:Hm;
    [|right; left; eauto].
  destruct (isTeamMember (authToken ctx) (teamId m)) eqn:Hteam;
    [|left; by eapply NotTeamMember].
  destruct (endedAt m) as [t|] eqn:Hend;
    [left; eapply MeetingEnded; eauto; rewrite Hend; eauto|].
  destruct (isPhaseComplete VOTE (phases m)) eqn:Hpc;
    [left; by eapply VotePhaseComplete|].
  destruct (meetingMemberOf (group_meetingId g) (getUserId (authToken ctx)) d) as [mm|] eqn:Hmm;
    [|left; by eapply NoMeetingMember].
  right; right. exists g, m. split; eauto.
Qed.

Lemma run_failure_silent arg gid ctx d :
  ValidationFailure gid ctx d →
  (∃ err, outcome (run arg gid ctx d) = Returned (ErrorPayload err))
  ∧ final (run arg gid ctx d) = d
  ∧ Forall (λ e, is_write e = false ∧ is_publish e = false) (events (run arg gid ctx d)).
Proof.
  intros Hfail. destruct (run_failure arg gid ctx d Hfail) as [msg ->]. simpl.
  split; [by eexists|]. split; [done|].
  repeat (apply Forall_cons; split; [done|]).
  destruct (RetroReflectionGroup d !! gid) as [g|]; [|done].
  destruct (isActive g); [|done].
  destruct (NewMeeting d !! group_meetingId g) as [m|]; [|done].
  simpl. repeat (apply Forall_cons; split; [done|]).
  destruct (_ && _); [|done].
  by repeat (apply Forall_cons; split; [done|]).
Qed.

(** C1: a request that fails a validation check (group missing or inactive,
    caller not on the meeting's team, meeting ended, vote phase complete, no
    meeting-member record) gets an error payload; the database is left as it
    was and the log holds neither a write nor a publish. *)
Theorem C1_failed_validation_is_silent arg gid ctx d :
  ValidationFailure gid ctx d →
  (∃ err, outcome (run arg gid ctx d) = Returned (ErrorPayload err))
  ∧ final (run arg gid ctx d) = d
  ∧ Forall (λ e, is_write e = false ∧ is_publish e = false) (events (run arg gid ctx d)).
Proof. apply run_failure_silent. Qed.




(** C3: a run that returns the vote payload published once, on the MEETING
    channel keyed by the meeting id of the group voted on, and the published
    data is the returned value: that meeting id, the caller's user id, the
    group id and the unlocked stage ids. *)
Theorem C3_publish_matches_return arg gid ctx d data :
  outcome (run arg gid ctx d) = Returned (VoteForReflectionGroupPayload data) →
  ∃ g, RetroReflectionGroup d !! gid = Some g
    ∧ List.filter is_publish (events (run arg gid ctx d))
      = [EvPublish MEETING (group_meetingId g) "VoteForReflectionGroupPayload" data
                   (mkSubOptions (dataLoader_share ctx) (socketId ctx))]
    ∧ data_meetingId data = group_meetingId g
    ∧ data_userId data = getUserId (authToken ctx)
    ∧ data_reflectionGroupId data = gid.
Proof.
  intros Hout.
  destruct (classify gid ctx d) as [Hfail|[(g & Hg & Hact & Hm)|(g & m & Hv)]].
  - destruct (run_failure arg gid ctx d Hfail) as [msg Hrun].
    rewrite Hrun in Hout. discriminate.
  - rewrite (run_dangling arg gid ctx d g Hg Hact Hm) in Hout. discriminate.
  - exists g. split; [apply Hv|].
    revert Hout. rewrite (run_valid arg gid ctx d g m Hv). cbv zeta.
    destruct (castOrWithdraw _ _ _ _ _ _ _) as [[e|] d1]; simpl; [done|].
    destruct (decideUnlock _ _ _) as [err|[u|]]; simpl; [done| |];
      intros [= <-]; simpl; by destruct (default false arg).
Qed.


(** C8: when the resolver writes the phases, the write is to the meeting of
    the group voted on and changes nothing but that meeting's [phases]: with
    [d1] the database the voting helper left, the other two tables and every
    other meeting are as in [d1], and the meeting keeps its id, [endedAt],
    [maxVotesPerGroup], [teamId] and every other field. *)
Theorem C8_update_writes_only_phases arg gid ctx d mid ps :
  EvUpdatePhases mid ps ∈ events (run arg gid ctx d) →
  ∃ g m d1,
    RetroReflectionGroup d !! gid = Some g
    ∧ NewMeeting d !! group_meetingId g = Some m
    ∧ mid = group_meetingId g
    ∧ d1 = (castOrWithdraw (default false arg) (authToken ctx) mid
              (getUserId (authToken ctx)) gid (maxVotesPerGroup m) d).2
    ∧ RetroReflectionGroup (final (run arg gid ctx d)) = RetroReflectionGroup d1
    ∧ MeetingMemberTable (final (run arg gid ctx d)) = MeetingMemberTable d1
    ∧ (∀ k, k ≠ mid → NewMeeting (final (run arg gid ctx d)) !! k = NewMeeting d1 !! k)
    ∧ (NewMeeting (final (run arg gid ctx d)) !! mid = None ↔ NewMeeting d1 !! mid = None)
    ∧ (∀ m1 m', NewMeeting d1 !! mid = Some m1 →
                NewMeeting (final (run arg gid ctx d)) !! mid = Some m' →
                phases m' = ps
                ∧ meeting_id m' = meeting_id m1
                ∧ endedAt m' = endedAt m1
                ∧ maxVotesPerGroup m' = maxVotesPerGroup m1
                ∧ teamId m' = teamId m1
                ∧ otherFields m' = otherFields m1).
Proof.
  intros Hin.
  destruct (classify gid ctx d) as [Hfail|[(g & Hg & Hact & Hm)|(g & m & Hv)]].
  - destruct (run_failure_silent arg gid ctx d Hfail) as (_ & _ & Hall).
    rewrite Forall_forall in Hall. by destruct (Hall _ Hin).
  - rewrite (run_dangling arg gid ctx d g Hg Hact Hm) in Hin.
    apply list_elem_of_In in Hin. simpl in Hin. by intuition.
  - revert Hin. rewrite (run_valid arg gid ctx d g m Hv). cbv zeta.
    destruct (castOrWithdraw _ _ _ _ _ _ _) as [[e|] d1] eqn:Hvote; simpl.
    { intros Hin. apply list_elem_of_In in Hin. simpl in Hin.
      destruct (default false arg); by intuition. }
    destruct (decideUnlock _ _ _) as [err|[u|]]; simpl; intros Hin;
      apply list_elem_of_In in Hin; simpl in Hin;
      try (destruct (default false arg); by intuition).
    assert (mid = group_meetingId g
            ∧ ps = (unlockAllStagesForPhase (phases m) "discuss" true u).2) as [-> ->].
    { destruct (default false arg); intuition; try discriminate; by simplify_eq. }
    exists g, m, d1. rewrite Hvote. simpl.
    split; [apply Hv|]. split; [apply Hv|]. do 4 (split; [done|]).
    split; [intros k Hk; by apply lookup_alter_ne|].
    split.
    { rewrite lookup_alter_eq. by destruct (NewMeeting d1 !! group_meetingId g). }
    intros m1 m' H1. rewrite lookup_alter_eq, H1. by intros [= <-].
Qed.

End Facts.

(** *** The resolver on the sample helpers *)

Import Sample.

Example cast_on_locked_meeting :
  outcome (Sample.run None "g1" ctx1 (db0 lockedDiscuss []))
  = Returned (VoteForReflectionGroupPayload (mkVoteData "m1" "u1" "g1" (Some ["d1"; "d2"]))).
Proof. vm_compute. reflexivity. Qed.

Example last_vote_withdrawn :
  phases <$> NewMeeting (final (Sample.run (Some true) "g1" ctx1 (db0 openDiscuss ["u1"]))) !! "m1"
  = Some lockedDiscuss.
Proof. vm_compute. reflexivity. Qed.

Example outsider_is_refused :
  Sample.run None "g1" outsider (db0 lockedDiscuss [])
  = mkRun (Returned (standardError "Team not found")) (db0 lockedDiscuss [])
          [EvGetUserId; EvGet "RetroReflectionGroup" "g1"; EvGet "NewMeeting" "m1";
           EvIsTeamMember "t1" false].
Proof. vm_compute. reflexivity. Qed.

(** The vote is cast before a missing discuss phase is noticed. *)
Example cast_without_discuss_phase :
  outcome (Sample.run None "g1" ctx1 (db0 voteOnly [])) = Threw "TypeError"
  ∧ voterIds <$> RetroReflectionGroup (final (Sample.run None "g1" ctx1 (db0 voteOnly []))) !! "g1"
    = Some ["u1"].
Proof. vm_compute. split; reflexivity. Qed.

Lemma C1_witness :
  (∃ err, outcome (Sample.run None "g1" outsider (db0 lockedDiscuss []))
          = Returned (ErrorPayload err))
  ∧ final (Sample.run None "g1" outsider (db0 lockedDiscuss [])) = db0 lockedDiscuss []
  ∧ Forall (λ e, is_write e = false ∧ is_publish e = false)
           (events (Sample.run None "g1" outsider (db0 lockedDiscuss []))).
Proof.
  apply (C1_failed_validation_is_silent Sample.getUserId Sample.isTeamMember "vote"
           Sample.isPhaseComplete Sample.safelyWithdrawVote Sample.safelyCastVote
           Sample.retroReflectionGroupsByMeetingId None "g1" outsider (db0 lockedDiscuss [])).
  apply (NotTeamMember _ _ _ _ _ _ _ (mkReflectionGroup "g1" true "m1" [])
                       (meeting1 lockedDiscuss)); vm_compute; reflexivity.
Defined.



Lemma C3_witness :
  ∃ g, RetroReflectionGroup (db0 lockedDiscuss []) !! "g1" = Some g
    ∧ List.filter is_publish (events (Sample.run None "g1" ctx1 (db0 lockedDiscuss [])))
      = [EvPublish MEETING (group_meetingId g) "VoteForReflectionGroupPayload"
                   (mkVoteData "m1" "u1" "g1" (Some ["d1"; "d2"]))
                   (mkSubOptions (dataLoader_share ctx1) (socketId ctx1))]
    ∧ data_meetingId (mkVoteData "m1" "u1" "g1" (Some ["d1"; "d2"])) = group_meetingId g
    ∧ data_userId (mkVoteData "m1" "u1" "g1" (Some ["d1"; "d2"]))
      = Sample.getUserId (authToken ctx1)
    ∧ data_reflectionGroupId (mkVoteData "m1" "u1" "g1" (Some ["d1"; "d2"])) = "g1".
Proof.
  apply (C3_publish_matches_return Sample.getUserId Sample.isTeamMember "vote"
           Sample.isPhaseComplete Sample.safelyWithdrawVote Sample.safelyCastVote
           Sample.retroReflectionGroupsByMeetingId None "g1" ctx1 (db0 lockedDiscuss [])).
  vm_compute. reflexivity.
Defined.


Lemma C8_witness :
  ∃ g m d1,
    RetroReflectionGroup (db0 openDiscuss ["u1"]) !! "g1" = Some g
    ∧ NewMeeting (db0 openDiscuss ["u1"]) !! group_meetingId g = Some m
    ∧ "m1" = group_meetingId g
    ∧ d1 = (castOrWithdraw Sample.safelyWithdrawVote Sample.safelyCastVote
              (default false (Some true)) (authToken ctx1) "m1"
              (Sample.getUserId (authToken ctx1)) "g1" (maxVotesPerGroup m)
              (db0 openDiscuss ["u1"])).2
    ∧ RetroReflectionGroup (final (Sample.run (Some true) "g1" ctx1 (db0 openDiscuss ["u1"])))
      = RetroReflectionGroup d1
    ∧ MeetingMemberTable (final (Sample.run (Some true) "g1" ctx1 (db0 openDiscuss ["u1"])))
      = MeetingMemberTable d1
    ∧ (∀ k, k ≠ "m1" →
            NewMeeting (final (Sample.run (Some true) "g1" ctx1 (db0 openDiscuss ["u1"]))) !! k
            = NewMeeting d1 !! k)
    ∧ (NewMeeting (final (Sample.run (Some true) "g1" ctx1 (db0 openDiscuss ["u1"]))) !! "m1" = None
       ↔ NewMeeting d1 !! "m1" = None)
    ∧ (∀ m1 m',
         NewMeeting d1 !! "m1" = Some m1 →
         NewMeeting (final (Sample.run (Some true) "g1" ctx1 (db0 openDiscuss ["u1"]))) !! "m1"
         = Some m' →
         phases m' = lockedDiscuss
         ∧ meeting_id m' = meeting_id m1
         ∧ endedAt m' = endedAt m1
         ∧ maxVotesPerGroup m' = maxVotesPerGroup m1
         ∧ teamId m' = teamId m1
         ∧ otherFields m' = otherFields m1).
Proof.
  apply (C8_update_writes_only_phases Sample.getUserId Sample.isTeamMember "vote"
           Sample.isPhaseComplete Sample.safelyWithdrawVote Sample.safelyCastVote
           Sample.retroReflectionGroupsByMeetingId (Some true) "g1" ctx1
           (db0 openDiscuss ["u1"]) "m1" lockedDiscuss).
  apply list_elem_of_In. vm_compute. tauto.
Defined.

End VoteFacts.

(** ** The order in which triggers fire *)
Module MigrationOrder.
Import Migration.

(** The order of trigger names is a total preorder. *)
Lemma string_leb_trans (s1 s2 s3 : string) :
  String.leb s1 s2 = true → String.leb s2 s3 = true → String.leb s1 s3 = true.
Proof.
  unfold String.leb. revert s2 s3.
  induction s1 as [|a s1 IH]; intros [|b s2] [|c s3]; simpl; try done.
  specialize (IH s2 s3). unfold Ascii.compare.
  destruct (N.compare_spec (Ascii.N_of_ascii a) (Ascii.N_of_ascii b)) as [Hab|Hab|Hab];
    destruct (N.compare_spec (Ascii.N_of_ascii b) (Ascii.N_of_ascii c)) as [Hbc|Hbc|Hbc];
    destruct (N.compare_spec (Ascii.N_of_ascii a) (Ascii.N_of_ascii c)) as [Hac|Hac|Hac];
    try done; try lia.
Qed.

#[export] Instance name_le_trans : Transitive name_le.
Proof.
  intros x y z. unfold name_le. rewrite !Is_true_true. apply string_leb_trans.
Qed.

#[export] Instance name_le_total : Total name_le.
Proof.
  intros x y. unfold name_le. rewrite !Is_true_true. apply String.leb_total.
Qed.

End MigrationOrder.

(** ** The migration *)
Module MigrationFacts.
Import Migration MigrationSamples MigrationOrder.

Lemma up_inv pg pg' :
  up pg = Some pg' →
  is_Some (tables pg !! "User")
  ∧ triggers pg !! ("User", "update_User_updatedAt") = None
  ∧ pg' = mkPg (<["set_updatedAt" := set_updatedAt]> (functions pg))
               (<[("User", "update_User_updatedAt") := mkTrigger BEFORE UPDATE "set_updatedAt"]>
                  (triggers pg))
               (tables pg).
Proof.
  unfold up, create_or_replace_function, create_trigger. simpl.
  rewrite lookup_insert_eq.
  destruct (tables pg !! "User") as [rows|]; [|done].
  destruct (triggers pg !! ("User", "update_User_updatedAt")); [done|].
  intros [= <-]. by eauto.
Qed.

Lemma up_total pg :
  is_Some (tables pg !! "User") →
  triggers pg !! ("User", "update_User_updatedAt") = None →
  is_Some (up pg).
Proof.
  intros [rows Hrows] Hnone.
  unfold up, create_or_replace_function, create_trigger. simpl.
  rewrite lookup_insert_eq, Hrows, Hnone. by eexists.
Qed.

(** After [up], the trigger of the migration is the only BEFORE UPDATE trigger
    of a [User] table that had none. *)
Lemma triggers_after_up pg pg' :
  up pg = Some pg' →
  no_before_update_trigger "User" pg →
  before_update_triggers "User" pg'
  = [("User", "update_User_updatedAt", mkTrigger BEFORE UPDATE "set_updatedAt")].
Proof.
  intros Hup Hnone. apply up_inv in Hup as (_ & Hfresh & ->).
  unfold before_update_triggers. simpl.
  apply Permutation_singleton_r.
  rewrite merge_sort_Permutation, map_to_list_insert by done.
  rewrite filter_cons_True by done.
  replace (filter (fires_on_update "User") (map_to_list (triggers pg))) with
    (@nil (string * string * Trigger)); [done|].
  symmetry. apply elem_of_nil_inv. intros [[table name] tg] Hin.
  apply list_elem_of_filter in Hin as [[Htable Hbefore] Hin]. simpl in *. subst table.
  apply elem_of_map_to_list in Hin. rewrite (Hnone _ _ Hin) in Hbefore. done.
Qed.

(** On a [User] table that had no BEFORE UPDATE trigger, no row is skipped:
    each row an UPDATE matches is stored as assigned, with the stamp. *)
Lemma stamps_when_alone pg pg' now set where_ :
  up pg = Some pg' →
  no_before_update_trigger "User" pg →
  ∀ old, where_ old = true →
    update_row now pg' "User" set where_ old
    = <["updatedAt" := VTimestamp now]> (assign set old).
Proof.
  intros Hup Hnone old Hwhere.
  pose proof (triggers_after_up pg pg' Hup Hnone) as Htg.
  apply up_inv in Hup as (_ & _ & Hpg').
  unfold update_row. rewrite Hwhere, Htg. simpl.
  rewrite Hpg'. simpl. by rewrite lookup_insert_eq.
Qed.

(** A row that is skipped or stamped stays so through triggers that keep the
    stamp. *)
Lemma chain_keeps_stamp now pg old (l : list (string * string * Trigger)) :
  (∀ entry f, entry ∈ l → functions pg !! tg_function entry.2 = Some f → keeps_stamp f) →
  ∀ acc,
    (∀ r, acc = Some r → r !! "updatedAt" = Some (VTimestamp now)) →
    ∀ r, foldl (fire now pg old) acc l = Some r → r !! "updatedAt" = Some (VTimestamp now).
Proof.
  induction l as [|entry l IH]; intros Hkeep acc Hacc r; simpl; [by apply Hacc|].
  apply IH.
  - intros entry' f Hin. apply Hkeep. by right.
  - intros r'. unfold fire. destruct acc as [new|]; [|done].
    destruct (functions pg !! tg_function entry.2) as [f|] eqn:Hf.
    + apply (Hkeep entry f); [by left|done|]. by apply Hacc.
    + intros [= <-]. by apply Hacc.
Qed.

Lemma fire_skipped now pg old (l : list (string * string * Trigger)) :
  foldl (fire now pg old) None l = None.
Proof. induction l as [|entry l IH]; [done|]. exact IH. Qed.

(** After [up], whatever other triggers [User] has, a row that comes out of
    the chain carries the stamp if the triggers firing later keep it. *)
Lemma chain_is_stamped pg pg' now set old new :
  up pg = Some pg' →
  later_triggers_keep_stamp pg' →
  trigger_chain now pg' "User" set old = Some new →
  new !! "updatedAt" = Some (VTimestamp now).
Proof.
  intros Hup Hlater. unfold trigger_chain.
  assert (functions pg' !! "set_updatedAt" = Some set_updatedAt
          ∧ triggers pg' !! ("User", "update_User_updatedAt")
            = Some (mkTrigger BEFORE UPDATE "set_updatedAt")) as [Hfun Htrig].
  { apply up_inv in Hup as (_ & _ & ->). simpl. by rewrite !lookup_insert_eq. }
  assert (("User", "update_User_updatedAt", mkTrigger BEFORE UPDATE "set_updatedAt")
          ∈ before_update_triggers "User" pg') as Hin.
  { unfold before_update_triggers. rewrite merge_sort_Permutation.
    apply list_elem_of_filter. split; [done|]. by apply elem_of_map_to_list. }
  pose proof (StronglySorted_merge_sort name_le
                (filter (fires_on_update "User") (map_to_list (triggers pg')))) as Hsorted.
  assert (∀ entry, entry ∈ before_update_triggers "User" pg' →
            entry.1.1 = "User" ∧ is_before_update entry.2 = true
            ∧ triggers pg' !! entry.1 = Some entry.2) as Hfrom.
  { intros [[table name] tg] Hentry. unfold before_update_triggers in Hentry.
    rewrite merge_sort_Permutation in Hentry.
    apply list_elem_of_filter in Hentry as [[Htable Hbefore] Hentry].
    by apply elem_of_map_to_list in Hentry. }
  fold (before_update_triggers "User" pg') in Hsorted.
  apply list_elem_of_split in Hin as (l1 & l2 & Hsplit).
  rewrite Hsplit in Hsorted, Hfrom. rewrite Hsplit.
  apply StronglySorted_app_1_r, StronglySorted_cons in Hsorted as [Hlater2 _].
  rewrite foldl_app. simpl.
  destruct (foldl (fire now pg' old) (Some (assign set old)) l1) as [x|];
    [|by rewrite fire_skipped].
  assert (fire now pg' old (Some x)
            ("User", "update_User_updatedAt", mkTrigger BEFORE UPDATE "set_updatedAt")
          = Some (<["updatedAt" := VTimestamp now]> x)) as ->.
  { unfold fire. cbn [snd tg_function]. unfold TriggerFunction in *. by rewrite Hfun. }
  apply chain_keeps_stamp.
  - intros [[table name] tg] f Hentry Hf.
    destruct (Hfrom (table, name, tg)) as (Htable & Hbefore & Hlookup).
    { apply list_elem_of_In, in_app_iff. right. right. by apply list_elem_of_In. }
    simpl in *. subst table.
    rewrite Forall_forall in Hlater2. specialize (Hlater2 _ Hentry).
    unfold name_le in Hlater2. simpl in Hlater2. apply Is_true_true in Hlater2.
    by apply (Hlater name tg f).
  - intros r [= <-]. apply lookup_insert_eq.
Qed.

(** C6, amended: once [up] has run, every row an UPDATE of [User] stores has
    [updatedAt] set to [now()], whatever the statement assigned, provided the
    BEFORE UPDATE row triggers of [User] that fire after
    [update_User_updatedAt] keep the stamp; a row that a trigger skips is left
    as it was.  On a [User] table without other BEFORE UPDATE triggers no
    row is skipped and the other columns are as assigned. *)
Theorem C6_update_stamps_updatedAt pg pg' now set where_ :
  up pg = Some pg' →
  later_triggers_keep_stamp pg' →
  ∃ rows,
    tables pg' !! "User" = Some rows
    ∧ tables <$> update now "User" set where_ pg'
      = Some (<["User" := map (update_row now pg' "User" set where_) rows]> (tables pg'))
    ∧ (∀ old, where_ old = true →
         match trigger_chain now pg' "User" set old with
         | Some new =>
             update_row now pg' "User" set where_ old = new
             ∧ new !! "updatedAt" = Some (VTimestamp now)
         | None => update_row now pg' "User" set where_ old = old
         end)
    ∧ (no_before_update_trigger "User" pg →
       ∀ old, where_ old = true →
         update_row now pg' "User" set where_ old
         = <["updatedAt" := VTimestamp now]> (assign set old)).
Proof.
  intros Hup Hlater.
  pose proof Hup as Hinv. apply up_inv in Hinv as ([rows Hrows] & _ & Hpg').
  exists rows. split; [by rewrite Hpg'|].
  split.
  { unfold update. replace (tables pg' !! "User") with (Some rows) by (by rewrite Hpg').
    reflexivity. }
  split.
  - intros old Hwhere.
    pose proof (chain_is_stamped pg pg' now set old) as Hchain.
    unfold update_row. rewrite Hwhere.
    fold (trigger_chain now pg' "User" set old).
    destruct (trigger_chain now pg' "User" set old) as [new|]; [|done].
    split; [done|]. by apply Hchain.
  - intros Hnone. by apply (stamps_when_alone pg).
Qed.

Lemma no_dependents pg name :
  catalog_closed pg →
  functions pg !! name = None →
  existsb (uses_function name) (map_to_list (triggers pg)) = false.
Proof.
  intros Hclosed Hnone.
  destruct (existsb _ _) eqn:Hex; [|done].
  apply existsb_exists in Hex as ([key tg] & Hin & Huses).
  apply list_elem_of_In, elem_of_map_to_list in Hin.
  unfold uses_function in Huses. simpl in Huses. apply String.eqb_eq in Huses.
  destruct (Hclosed _ _ Hin) as [f Hf]. congruence.
Qed.

(** C7: from the schema before the migration, [up] succeeds and leaves both
    the trigger and the function; [down] then succeeds, leaves neither, and
    the database is the one [up] started from. *)
Theorem C7_up_down_round_trip pg :
  pre_migration pg →
  ∃ pg1 pg2,
    up pg = Some pg1
    ∧ has_trigger "update_User_updatedAt" "User" pg1
    ∧ has_function "set_updatedAt" pg1
    ∧ down pg1 = Some pg2
    ∧ ¬ has_trigger "update_User_updatedAt" "User" pg2
    ∧ ¬ has_function "set_updatedAt" pg2
    ∧ pg2 = pg.
Proof.
  intros [Htable Hclosed Hnofun Hnotrig].
  destruct (up_total pg Htable Hnotrig) as [pg1 Hup].
  exists pg1, pg. split; [done|].
  apply up_inv in Hup as (_ & _ & ->).
  unfold has_trigger, has_function. simpl.
  rewrite !lookup_insert_eq, Hnotrig, Hnofun.
  split; [by eexists|]. split; [by eexists|].
  split; [|split; [by intros [? ?]|split; [by intros [? ?]|done]]].
  unfold down, drop_trigger. simpl. rewrite lookup_insert_eq. simpl.
  unfold drop_function. simpl. rewrite lookup_insert_eq.
  rewrite delete_insert_eq, (delete_id _ _ Hnotrig).
  rewrite (no_dependents pg "set_updatedAt" Hclosed Hnofun).
  rewrite delete_insert_eq, (delete_id _ _ Hnofun).
  by destruct pg.
Qed.

(** Whenever both queries are accepted, the two objects are there after
    [up] and gone after [down]. *)
Lemma up_down_objects pg pg1 pg2 :
  up pg = Some pg1 →
  down pg1 = Some pg2 →
  has_trigger "update_User_updatedAt" "User" pg1
  ∧ has_function "set_updatedAt" pg1
  ∧ ¬ has_trigger "update_User_updatedAt" "User" pg2
  ∧ ¬ has_function "set_updatedAt" pg2.
Proof.
  intros Hup Hdown. apply up_inv in Hup as (_ & _ & ->).
  unfold has_trigger, has_function. simpl. rewrite !lookup_insert_eq.
  split; [by eexists|]. split; [by eexists|].
  revert Hdown. unfold down, drop_trigger. simpl. rewrite lookup_insert_eq. simpl.
  unfold drop_function. simpl. rewrite lookup_insert_eq.
  destruct (existsb _ _); [done|]. intros [= <-]. simpl.
  rewrite !lookup_delete_eq. split; by intros [? ?].
Qed.

(** [down] is rejected, and nothing is dropped, while another trigger still
    uses the function. *)
Example down_rejected_when_shared :
  ∃ pg1, up pg_shared = Some pg1 ∧ down pg1 = None.
Proof. eexists. split; [reflexivity|]. vm_compute. reflexivity. Qed.

Lemma pg0_pre_migration : pre_migration pg0.
Proof.
  split.
  - vm_compute. by eexists.
  - intros key tg Hin. simpl in Hin. by rewrite lookup_empty in Hin.
  - reflexivity.
  - reflexivity.
Defined.

Lemma pg_busy_keeps_stamp : later_triggers_keep_stamp pg_busy_up.
Proof.
  intros name tg f Htrig _ _ Hfun. simpl in Htrig, Hfun.
  assert (tg_function tg = "set_updatedAt" ∨ tg_function tg = "touch") as [Hfn|Hfn].
  { apply lookup_insert_Some in Htrig as [[_ <-]|[_ Htrig]]; [by left|].
    apply lookup_insert_Some in Htrig as [[_ <-]|[_ Htrig]]; [by right|].
    apply lookup_singleton_Some in Htrig as [_ <-]. by right. }
  - rewrite Hfn, lookup_insert_eq in Hfun. injection Hfun as <-.
    intros now old new r _ [= <-]. apply lookup_insert_eq.
  - rewrite Hfn, lookup_insert_ne, lookup_singleton_eq in Hfun by done.
    injection Hfun as <-.
    intros now old new r Hstamp [= <-]. by rewrite lookup_insert_ne.
Defined.

Lemma C6_witness :
  ∃ rows,
    tables pg_busy_up !! "User" = Some rows
    ∧ tables <$> update 100 "User" [("updatedAt", λ _, VTimestamp 1)] (λ _, true) pg_busy_up
      = Some (<["User" := map (update_row 100 pg_busy_up "User"
                                 [("updatedAt", λ _, VTimestamp 1)] (λ _, true)) rows]>
                (tables pg_busy_up))
    ∧ (∀ old, (λ _ : Row, true) old = true →
         match trigger_chain 100 pg_busy_up "User" [("updatedAt", λ _, VTimestamp 1)] old with
         | Some new =>
             update_row 100 pg_busy_up "User" [("updatedAt", λ _, VTimestamp 1)]
                        (λ _, true) old = new
             ∧ new !! "updatedAt" = Some (VTimestamp 100)
         | None =>
             update_row 100 pg_busy_up "User" [("updatedAt", λ _, VTimestamp 1)]
                        (λ _, true) old = old
         end)
    ∧ (no_before_update_trigger "User" pg_busy →
       ∀ old, (λ _ : Row, true) old = true →
         update_row 100 pg_busy_up "User" [("updatedAt", λ _, VTimestamp 1)] (λ _, true) old
         = <["updatedAt" := VTimestamp 100]> (assign [("updatedAt", λ _, VTimestamp 1)] old)).
Proof.
  apply (C6_update_stamps_updatedAt pg_busy pg_busy_up 100
           [("updatedAt", λ _, VTimestamp 1)] (λ _, true)).
  - vm_compute. reflexivity.
  - exact pg_busy_keeps_stamp.
Defined.

(** With the two other triggers around it, the stamp still ends up in the row. *)
Example alice_among_triggers :
  (λ pg, tables pg !! "User")
    <$> update 100 "User" [("updatedAt", λ _, VTimestamp 1)] (λ _, true) pg_busy_up
  = Some (Some [ <["touchedAt" := VTimestamp 100]>
                   (<["updatedAt" := VTimestamp 100]> alice) ]).
Proof. vm_compute. reflexivity. Qed.

Lemma pg_zz_pre_migration : pre_migration pg_zz.
Proof.
  split.
  - vm_compute. by eexists.
  - intros key tg Hin. simpl in Hin.
    apply lookup_singleton_Some in Hin as [_ <-]. vm_compute. by eexists.
  - reflexivity.
  - reflexivity.
Qed.

(** A trigger of [User] that fires after the migration's overwrites the
    stamp: the UPDATE at time 100 stores [updatedAt] 7. *)
Lemma C6_counterexample :
  pre_migration pg_zz
  ∧ up pg_zz = Some pg_zz_up
  ∧ (λ pg, tables pg !! "User") <$> update 100 "User" [] (λ _, true) pg_zz_up
    = Some (Some [ <["updatedAt" := VTimestamp 7]> alice ])
  ∧ update_row 100 pg_zz_up "User" [] (λ _, true) alice !! "updatedAt"
    ≠ Some (VTimestamp 100).
Proof.
  split; [exact pg_zz_pre_migration|].
  split; [vm_compute; reflexivity|].
  split; [vm_compute; reflexivity|].
  vm_compute. discriminate.
Qed.

Lemma C7_witness :
  ∃ pg1 pg2,
    up pg0 = Some pg1
    ∧ has_trigger "update_User_updatedAt" "User" pg1
    ∧ has_function "set_updatedAt" pg1
    ∧ down pg1 = Some pg2
    ∧ ¬ has_trigger "update_User_updatedAt" "User" pg2
    ∧ ¬ has_function "set_updatedAt" pg2
    ∧ pg2 = pg0.
Proof. apply (C7_up_down_round_trip pg0). exact pg0_pre_migration. Defined.

Example alice_is_stamped :
  (λ pg, tables pg !! "User")
    <$> update 100 "User" [("updatedAt", λ _, VTimestamp 1); ("email", λ _, VText "a@b.c")]
               (λ _, true) pg0_up
  = Some (Some [ {[ "id" := VText "u1"; "email" := VText "a@b.c";
                    "updatedAt" := VTimestamp 100 ]} ]).
Proof. vm_compute. reflexivity. Qed.

End MigrationFacts.

(** ** useSpotlightColumns *)
Module SpotlightFacts.
Import Spotlight.

Lemma keys_length n : 0 ≤ n → Z.of_nat (length (keys n)) = n.
Proof. intros Hn. unfold keys. rewrite length_map, length_seq. lia. Qed.

Lemma maxColumns_range C width : 1 ≤ maxColumns C width ≤ 3.
Proof. unfold maxColumns, maxColumnsLargeScreen, minColumns. lia. Qed.

Lemma columnsCount_range C width groupsCount : 1 ≤ columnsCount C width groupsCount ≤ 3.
Proof.
  pose proof (maxColumns_range C width) as Hmax.
  unfold columnsCount, minColumns.
  destruct (groupsPerColumn C width groupsCount <? minGroupsPerColumn); simpl; [|lia].
  destruct (maxColumns C width =? 1) eqn:H1; simpl; [lia|].
  apply Z.eqb_neq in H1. lia.
Qed.



(** Three groups on a wide screen: three columns fit, two are used. *)
Example three_groups_wide :
  getColumns 296 (Some 1000) 3 (mkHookState None (Some None))
  = mkHookState (Some [0; 1]) (Some (Some 2)).
Proof. reflexivity. Qed.

Example seven_groups_wide :
  columns (getColumns 296 (Some 1000) 7 (mkHookState None None)) = Some [0; 1; 2].
Proof. reflexivity. Qed.

Example two_groups : columns (getColumns 296 (Some 1000) 2 (mkHookState None None)) = Some [0].
Proof. reflexivity. Qed.

Example narrow_screen : columns (getColumns 296 (Some 200) 9 (mkHookState None None)) = Some [0].
Proof. reflexivity. Qed.

(** No element, or a width of zero: the state is left as it is. *)
Example no_width (st : HookState) :
  getColumns 296 None 5 st = st ∧ getColumns 296 (Some 0) 5 st = st.
Proof. split; reflexivity. Qed.

End SpotlightFacts.

(** ** StageTimerModalEndTimeSlackToggle *)
Module SlackToggleFacts.
Import SlackToggle.

Lemma find_first (p : SlackNotification → bool) l n :
  List.find p l = Some n
  ↔ ∃ l1 l2, l = (l1 ++ n :: l2)%list ∧ p n = true ∧ Forall (λ x, p x = false) l1.
Proof.
  induction l as [|x l IH]; simpl.
  - split; [done|]. intros (l1 & l2 & Hl & _). by destruct l1.
  - destruct (p x) eqn:Hx.
    + split.
      * intros [= ->]. exists [], l. by repeat split.
      * intros (l1 & l2 & Hl & Hn & Hall). destruct l1 as [|y l1]; simplify_eq/=; [done|].
        apply Forall_cons in Hall as [Hy _]. congruence.
    + rewrite IH. split.
      * intros (l1 & l2 & -> & Hn & Hall). exists (x :: l1), l2.
        split; [done|]. split; [done|]. by apply Forall_cons.
      * intros (l1 & l2 & Hl & Hn & Hall). destruct l1 as [|y l1]; simplify_eq/=.
        { congruence. }
        apply Forall_cons in Hall as [_ Hall]. by exists l1, l2.
Qed.

Lemma timeLimitEvent_first f n :
  timeLimitEvent f = Some n
  ↔ first_for "MEETING_STAGE_TIME_LIMIT_START" (notifications f) n.
Proof.
  unfold timeLimitEvent, first_for. rewrite find_first.
  split; intros (l1 & l2 & Hl & Hn & Hall); exists l1, l2; (split; [done|]).
  - apply String.eqb_eq in Hn. split; [done|].
    eapply Forall_impl; [exact Hall|]. intros x Hx. simpl in Hx. by apply String.eqb_neq in Hx.
  - split; [by apply String.eqb_eq|].
    eapply Forall_impl; [exact Hall|]. intros x Hx. simpl. by apply String.eqb_neq.
Qed.

(** The toggle is off although a later notification for the event has a channel. *)
Lemma C10_counterexample :
  ¬ (slackToggleActive shadowed = true ↔ has_time_limit_channel shadowed).
Proof.
  intros [_ Hback]. enough (slackToggleActive shadowed = true) by done.
  apply Hback. exists (mkNotification (Some "C-123") "MEETING_STAGE_TIME_LIMIT_START").
  split; [|done]. apply list_elem_of_In. simpl. tauto.
Qed.

(** The same with one notification whose channel id is the empty string. *)
Example blank_channel_is_off :
  slackToggleActive blank = false ∧ has_time_limit_channel blank.
Proof.
  split; [reflexivity|].
  exists (mkNotification (Some "") "MEETING_STAGE_TIME_LIMIT_START").
  split; [|done]. apply list_elem_of_In. simpl. tauto.
Qed.

(** C10, amended: the toggle is on exactly when the first notification for
    MEETING_STAGE_TIME_LIMIT_START has a channel id that is neither null nor
    empty; a click with Slack active and nothing in flight submits, and sends
    the mutation for that event and the facilitator's team with a null channel
    id when the toggle was on and the default team channel id when it was off. *)
Theorem C10_toggle_and_click (f : Facilitator) :
  (slackToggleActive f = true
   ↔ ∃ n c, first_for "MEETING_STAGE_TIME_LIMIT_START" (notifications f) n
            ∧ channelId n = Some c ∧ c ≠ "")
  ∧ (slackIsActive f = true →
     ∃ s, slack (integrations f) = Some s
          ∧ onClick f false
            = [ SubmitMutation;
                SetSlackNotificationMutation
                  (mkVariables (if slackToggleActive f then None
                                else Some (defaultTeamChannelId s))
                               ["MEETING_STAGE_TIME_LIMIT_START"] (teamId f)) ]).
Proof.
  split.
  - unfold slackToggleActive, Js.truthy_string.
    destruct (timeLimitEvent f) as [n|] eqn:Hfind.
    + apply timeLimitEvent_first in Hfind. split.
      * intros Hon. destruct (channelId n) as [c|] eqn:Hc; [|done].
        exists n, c. split; [done|]. split; [done|].
        apply negb_true_iff, String.eqb_neq in Hon. done.
      * intros (n' & c & Hfirst & Hc & Hne).
        apply timeLimitEvent_first in Hfind, Hfirst. simplify_eq.
        rewrite Hc. by apply negb_true_iff, String.eqb_neq.
    + split; [done|]. intros (n' & c & Hfirst & _).
      apply timeLimitEvent_first in Hfirst. congruence.
  - unfold slackIsActive, onClick.
    destruct (slack (integrations f)) as [s|]; [|done].
    intros ->. by exists s.
Qed.

Example click_when_on :
  onClick subscribed false
  = [ SubmitMutation;
      SetSlackNotificationMutation
        (mkVariables None ["MEETING_STAGE_TIME_LIMIT_START"] "team1") ].
Proof. reflexivity. Qed.

Example click_when_shadowed :
  onClick shadowed false
  = [ SubmitMutation;
      SetSlackNotificationMutation
        (mkVariables (Some "C-team") ["MEETING_STAGE_TIME_LIMIT_START"] "team1") ].
Proof. reflexivity. Qed.

Example click_while_submitting : onClick subscribed true = [].
Proof. reflexivity. Qed.

End SlackToggleFacts.

(** ** voteForReflectionGroup: errors, exceptions and what is reported *)
Module VoteMore.
Import Vote.

(** X6: the tally is zero exactly when no loaded group has a voter. *)
Theorem voteCount_zero_iff (reflectionGroups : list ReflectionGroup) :
  voteCount reflectionGroups = 0 ↔ Forall (λ g, voterIds g = []) reflectionGroups.
Proof.
  unfold voteCount. rewrite VoteFacts.voteCount_from. unfold sum_of_votes.
  induction reflectionGroups as [|g gs IH]; simpl.
  - split; [constructor|lia].
  - assert (0 ≤ foldr Z.add 0 (map (λ group, Z.of_nat (length (voterIds group))) gs)) as Hpos.
    { clear. induction gs; simpl; lia. }
    split.
    + intros Hsum. constructor.
      * destruct (voterIds g); [done|simpl in Hsum; lia].
      * apply IH. lia.
    + intros Hall. apply Forall_cons in Hall as [Hg Hall].
      rewrite Hg. simpl. apply IH in Hall. lia.
Qed.

Ltac find_event :=
  repeat first [by apply Exists_cons_hd | apply Exists_cons_tl].

Section More.

Context {AuthToken : Type}.
Variable getUserId : AuthToken → string.
Variable isTeamMember : AuthToken → string → bool.
Variable VOTE : string.
Variable isPhaseComplete : string → list Phase → bool.
Variable safelyWithdrawVote :
  AuthToken → string → string → string → DB → option StandardError * DB.
Variable safelyCastVote :
  AuthToken → string → string → string → Z → DB → option StandardError * DB.
Variable retroReflectionGroupsByMeetingId : DB → string → list ReflectionGroup.

Local Abbreviation run :=
  (run getUserId isTeamMember VOTE isPhaseComplete safelyWithdrawVote safelyCastVote
       retroReflectionGroupsByMeetingId).
Local Abbreviation castOrWithdraw := (castOrWithdraw safelyWithdrawVote safelyCastVote).
Local Abbreviation Valid := (Valid getUserId isTeamMember VOTE isPhaseComplete).
Local Abbreviation run_valid :=
  (VoteFacts.run_valid getUserId isTeamMember VOTE isPhaseComplete safelyWithdrawVote
     safelyCastVote retroReflectionGroupsByMeetingId).
Local Abbreviation run_failure :=
  (VoteFacts.run_failure getUserId isTeamMember VOTE isPhaseComplete safelyWithdrawVote
     safelyCastVote retroReflectionGroupsByMeetingId).
Local Abbreviation run_dangling :=
  (VoteFacts.run_dangling getUserId isTeamMember VOTE isPhaseComplete safelyWithdrawVote
     safelyCastVote retroReflectionGroupsByMeetingId).
Local Abbreviation classify :=
  (VoteFacts.classify getUserId isTeamMember VOTE isPhaseComplete).

(** X1: when the voting helper refuses, its error is returned as it is; the
    database is the one the helper left, the phases are not written and
    nothing is published. *)
Theorem voting_error_is_passed_on arg gid ctx d g m err d1 :
  Valid gid ctx d g m →
  castOrWithdraw (default false arg) (authToken ctx) (group_meetingId g)
    (getUserId (authToken ctx)) gid (maxVotesPerGroup m) d = (Some err, d1) →
  outcome (run arg gid ctx d) = Returned (ErrorPayload err)
  ∧ final (run arg gid ctx d) = d1
  ∧ Forall (λ e, is_publish e = false ∧ is_update e = false ∧ e ≠ loadEvent g)
           (events (run arg gid ctx d)).
Proof.
  intros Hv Hvote. rewrite (run_valid arg gid ctx d g m Hv). cbv zeta.
  rewrite Hvote. simpl. split; [done|]. split; [done|].
  destruct (default false arg); by repeat (apply Forall_cons; split; [done|]).
Qed.

Lemma decideUnlock_throws unvote ps count :
  (∃ err, decideUnlock unvote ps count = inl err)
  ↔ unvote = false ∧ firstDiscussStage ps = None.
Proof.
  unfold decideUnlock, firstDiscussStage. destruct unvote; simpl.
  - split; [|by intros [? _]]. intros [err Herr]. by destruct (count =? 0).
  - destruct (findPhase "discuss" ps) as [p|]; [|by split; eauto].
    destruct (stages p) as [|s ss]; simpl; [by split; eauto|].
    split; [|by intros [_ ?]]. intros [err Herr].
    by destruct (isNavigableByFacilitator s).
Qed.

(** X2: the resolver publishes exactly on the runs that return the vote
    payload: never with an error payload, never when it throws. *)
Theorem publish_iff_success arg gid ctx d :
  Exists (λ e, is_publish e = true) (events (run arg gid ctx d))
  ↔ ∃ data, outcome (run arg gid ctx d) = Returned (VoteForReflectionGroupPayload data).
Proof.
  destruct (classify gid ctx d) as [Hfail|[(g & Hg & Hact & Hm)|(g & m & Hv)]].
  - destruct (VoteFacts.run_failure_silent getUserId isTeamMember VOTE isPhaseComplete
                safelyWithdrawVote safelyCastVote retroReflectionGroupsByMeetingId
                arg gid ctx d Hfail) as ([err Herr] & _ & Hall).
    split.
    + intros Hex. apply Exists_exists in Hex as (e & Hin & Hp).
      rewrite Forall_forall in Hall. destruct (Hall e Hin) as [_ Hnp]. congruence.
    + intros [data Hdata]. congruence.
  - rewrite (run_dangling arg gid ctx d g Hg Hact Hm). simpl. split.
    + intros Hex. by repeat (apply Exists_cons in Hex as [?|Hex]; [done|]);
        apply Exists_nil in Hex.
    + by intros [data ?].
  - rewrite (run_valid arg gid ctx d g m Hv). cbv zeta.
    destruct (castOrWithdraw _ _ _ _ _ _ _) as [[e|] d1]; simpl.
    { split; [|by intros [data ?]]. intros Hex.
      destruct (default false arg);
        by repeat (apply Exists_cons in Hex as [?|Hex]; [done|]);
          apply Exists_nil in Hex. }
    destruct (decideUnlock _ _ _) as [err|[u|]]; simpl.
    + split; [|by intros [data ?]]. intros Hex.
      destruct (default false arg);
        by repeat (apply Exists_cons in Hex as [?|Hex]; [done|]);
          apply Exists_nil in Hex.
    + split; [by eauto|]. intros _. find_event.
    + split; [by eauto|]. intros _. find_event.
Qed.

(** X3: the payload carries stage ids exactly when the run wrote the phases. *)
Theorem stage_ids_iff_written arg gid ctx d data :
  outcome (run arg gid ctx d) = Returned (VoteForReflectionGroupPayload data) →
  is_Some (data_unlockedStageIds data)
  ↔ Exists (λ e, is_update e = true) (events (run arg gid ctx d)).
Proof.
  destruct (classify gid ctx d) as [Hfail|[(g & Hg & Hact & Hm)|(g & m & Hv)]].
  - destruct (run_failure arg gid ctx d Hfail) as [msg ->]. done.
  - by rewrite (run_dangling arg gid ctx d g Hg Hact Hm).
  - rewrite (run_valid arg gid ctx d g m Hv). cbv zeta.
    destruct (castOrWithdraw _ _ _ _ _ _ _) as [[e|] d1]; simpl; [done|].
    destruct (decideUnlock _ _ _) as [err|[u|]]; simpl; [done| |]; intros [= <-]; simpl.
    + split; [|by eauto]. intros _. find_event.
    + split; [by intros [? ?]|]. intros Hex.
      destruct (default false arg);
        by repeat (apply Exists_cons in Hex as [?|Hex]; [done|]);
          apply Exists_nil in Hex.
Qed.

(** X4: the checks are made in a fixed order and the first one that fails
    names the error: a missing or inactive group, then the team, then the end
    of the meeting, then the vote phase, then the member record.  A caller
    who is not on the team is told "Team not found" whatever the state of the
    meeting. *)
Theorem first_failed_check_names_the_error arg gid ctx d :
  (RetroReflectionGroup d !! gid = None →
   outcome (run arg gid ctx d) = Returned (standardError "Reflection group not found"))
  ∧ ∀ g, RetroReflectionGroup d !! gid = Some g →
    (isActive g = false →
     outcome (run arg gid ctx d) = Returned (standardError "Reflection group not found"))
    ∧ ∀ m, isActive g = true → NewMeeting d !! group_meetingId g = Some m →
      (isTeamMember (authToken ctx) (teamId m) = false →
       outcome (run arg gid ctx d) = Returned (standardError "Team not found"))
      ∧ (isTeamMember (authToken ctx) (teamId m) = true →
         (is_Some (endedAt m) →
          outcome (run arg gid ctx d) = Returned (standardError "Meeting already ended"))
         ∧ (endedAt m = None →
            (isPhaseComplete VOTE (phases m) = true →
             outcome (run arg gid ctx d)
             = Returned (standardError "Meeting phase already completed"))
            ∧ (isPhaseComplete VOTE (phases m) = false →
               meetingMemberOf (group_meetingId g) (getUserId (authToken ctx)) d = None →
               outcome (run arg gid ctx d)
               = Returned (standardError "Meeting member not found")))).
Proof.
  unfold Vote.run, resolve. VoteFacts.unfold_M. simpl.
  split; [by intros ->|]. intros g ->. simpl.
  split; [by intros ->|]. intros m ->. simpl. intros ->. simpl.
  split; [by intros ->|]. intros ->. simpl.
  split; [by intros [t ->]|].
  intros ->. simpl.
  split; [by intros ->|]. intros ->. simpl. by intros ->.
Qed.

(** X5: the resolver throws in two situations only: the group points to a
    meeting that is not in the table, or a cast vote was accepted for a
    meeting whose discuss phase is missing or has no stage. *)
Theorem throws_iff arg gid ctx d :
  (∃ err, outcome (run arg gid ctx d) = Threw err)
  ↔ (∃ g, RetroReflectionGroup d !! gid = Some g ∧ isActive g = true
          ∧ NewMeeting d !! group_meetingId g = None)
    ∨ (∃ g m d1, Valid gid ctx d g m
          ∧ default false arg = false
          ∧ castOrWithdraw false (authToken ctx) (group_meetingId g)
              (getUserId (authToken ctx)) gid (maxVotesPerGroup m) d = (None, d1)
          ∧ firstDiscussStage (phases m) = None).
Proof.
  destruct (classify gid ctx d) as [Hfail|[(g & Hg & Hact & Hm)|(g & m & Hv)]].
  - destruct (run_failure arg gid ctx d Hfail) as [msg Hrun]. rewrite Hrun. simpl.
    split; [by intros [? ?]|].
    intros [(g & Hg & Hact & Hm)|(g & m & d1 & Hv & Harg & Hvote & Hnone)].
    + rewrite (run_dangling arg gid ctx d g Hg Hact Hm) in Hrun. done.
    + rewrite (run_valid arg gid ctx d g m Hv) in Hrun. cbv zeta in Hrun.
      rewrite Harg in Hrun. simpl in Hrun, Hvote. rewrite Hvote in Hrun. simpl in Hrun.
      destruct (decideUnlock_throws false (phases m)
                  (voteCount (retroReflectionGroupsByMeetingId d1 (group_meetingId g))))
        as [_ [err Herr]]; [done|].
      rewrite Herr in Hrun. done.
  - rewrite (run_dangling arg gid ctx d g Hg Hact Hm). simpl.
    split; [|by eauto]. intros _. left. by exists g.
  - rewrite (run_valid arg gid ctx d g m Hv). cbv zeta.
    destruct (castOrWithdraw _ _ _ _ _ _ _) as [[e|] d1] eqn:Hvote; simpl.
    { split; [by intros [? ?]|].
      intros [(g' & Hg' & _ & Hm')|(g' & m' & d1' & Hv' & Harg & Hvote' & _)].
      - destruct Hv as [Hg _ Hm _ _ _ _]. by simplify_eq.
      - destruct Hv as [Hg _ Hm _ _ _ _], Hv' as [Hg' _ Hm' _ _ _ _]. simplify_eq.
        rewrite Harg in Hvote. simpl in *. congruence. }
    destruct (decideUnlock _ _ _) as [err|r] eqn:Hdec.
    + simpl. split; [|by eauto]. intros _. right.
      destruct (decideUnlock_throws (default false arg) (phases m)
                  (voteCount (retroReflectionGroupsByMeetingId d1 (group_meetingId g))))
        as [[Harg Hnone] _]; [by eauto|].
      exists g, m, d1. rewrite Harg in Hvote. simpl in *. done.
    + simpl.
      split; [destruct r; by intros [? ?]|].
      intros [(g' & Hg' & _ & Hm')|(g' & m' & d1' & Hv' & Harg & Hvote' & Hnone)].
      * destruct Hv as [Hg _ Hm _ _ _ _]. by simplify_eq.
      * destruct Hv as [Hg _ Hm _ _ _ _], Hv' as [Hg' _ Hm' _ _ _ _]. simplify_eq.
        rewrite Harg in Hvote, Hdec. simpl in Hvote, Hvote'. simplify_eq.
        destruct (decideUnlock_throws false (phases m)
                    (voteCount (retroReflectionGroupsByMeetingId d1 (group_meetingId g))))
          as [_ [err Herr]]; [done|]. congruence.
Qed.

(** X7: a cast vote on a meeting without a first discuss stage is recorded by
    the helper and then lost to the clients: the resolver throws after the
    helper ran, writes no phases and publishes nothing. *)
Theorem cast_without_discuss_stage arg gid ctx d g m d1 :
  Valid gid ctx d g m →
  default false arg = false →
  castOrWithdraw false (authToken ctx) (group_meetingId g)
    (getUserId (authToken ctx)) gid (maxVotesPerGroup m) d = (None, d1) →
  firstDiscussStage (phases m) = None →
  outcome (run arg gid ctx d) = Threw "TypeError"
  ∧ final (run arg gid ctx d) = d1
  ∧ Exists (λ e, e = EvSafelyCastVote (group_meetingId g) (getUserId (authToken ctx)) gid
                      (maxVotesPerGroup m)) (events (run arg gid ctx d))
  ∧ Forall (λ e, is_publish e = false ∧ is_update e = false) (events (run arg gid ctx d)).
Proof.
  intros Hv Harg Hvote Hnone. rewrite (run_valid arg gid ctx d g m Hv). cbv zeta.
  rewrite Harg. simpl in *. rewrite Hvote. simpl.
  assert (decideUnlock false (phases m)
            (voteCount (retroReflectionGroupsByMeetingId d1 (group_meetingId g)))
          = inl "TypeError") as ->.
  { revert Hnone. unfold decideUnlock, firstDiscussStage. simpl.
    destruct (findPhase "discuss" (phases m)) as [p|]; [|done].
    by destruct (stages p). }
  simpl. split; [done|]. split; [done|]. split.
  - find_event.
  - by repeat (apply Forall_cons; split; [done|]).
Qed.

End More.

Import Sample.

Lemma sample_valid ps voters :
  Sample.isPhaseComplete "vote" ps = false →
  Valid Sample.getUserId Sample.isTeamMember "vote" Sample.isPhaseComplete
        "g1" ctx1 (db0 ps voters) (mkReflectionGroup "g1" true "m1" voters) (meeting1 ps).
Proof.
  intros Hphase. split; try reflexivity; [exact Hphase|]. vm_compute. by eexists.
Defined.

Lemma voting_error_witness :
  outcome (Sample.run None "g1" ctx1 (db0 lockedDiscuss ["u1"; "u1"; "u1"]))
  = Returned (ErrorPayload (mkStandardError "Max votes per group exceeded"))
  ∧ final (Sample.run None "g1" ctx1 (db0 lockedDiscuss ["u1"; "u1"; "u1"]))
    = db0 lockedDiscuss ["u1"; "u1"; "u1"]
  ∧ Forall (λ e, is_publish e = false ∧ is_update e = false
                 ∧ e ≠ loadEvent (mkReflectionGroup "g1" true "m1" ["u1"; "u1"; "u1"]))
           (events (Sample.run None "g1" ctx1 (db0 lockedDiscuss ["u1"; "u1"; "u1"]))).
Proof.
  apply (voting_error_is_passed_on Sample.getUserId Sample.isTeamMember "vote"
           Sample.isPhaseComplete Sample.safelyWithdrawVote Sample.safelyCastVote
           Sample.retroReflectionGroupsByMeetingId None "g1" ctx1
           (db0 lockedDiscuss ["u1"; "u1"; "u1"])
           (mkReflectionGroup "g1" true "m1" ["u1"; "u1"; "u1"]) (meeting1 lockedDiscuss)).
  - apply sample_valid. reflexivity.
  - vm_compute. reflexivity.
Defined.

Lemma stage_ids_witness :
  is_Some (data_unlockedStageIds (mkVoteData "m1" "u1" "g1" (Some ["d1"; "d2"])))
  ↔ Exists (λ e, is_update e = true)
           (events (Sample.run None "g1" ctx1 (db0 lockedDiscuss []))).
Proof.
  apply (stage_ids_iff_written Sample.getUserId Sample.isTeamMember "vote"
           Sample.isPhaseComplete Sample.safelyWithdrawVote Sample.safelyCastVote
           Sample.retroReflectionGroupsByMeetingId None "g1" ctx1 (db0 lockedDiscuss [])).
  vm_compute. reflexivity.
Defined.

Lemma cast_without_discuss_witness :
  outcome (Sample.run None "g1" ctx1 (db0 voteOnly [])) = Threw "TypeError"
  ∧ final (Sample.run None "g1" ctx1 (db0 voteOnly [])) = db0 voteOnly ["u1"]
  ∧ Exists (λ e, e = EvSafelyCastVote "m1" "u1" "g1" 3)
           (events (Sample.run None "g1" ctx1 (db0 voteOnly [])))
  ∧ Forall (λ e, is_publish e = false ∧ is_update e = false)
           (events (Sample.run None "g1" ctx1 (db0 voteOnly []))).
Proof.
  apply (cast_without_discuss_stage Sample.getUserId Sample.isTeamMember "vote"
           Sample.isPhaseComplete Sample.safelyWithdrawVote Sample.safelyCastVote
           Sample.retroReflectionGroupsByMeetingId None "g1" ctx1 (db0 voteOnly [])
           (mkReflectionGroup "g1" true "m1" []) (meeting1 voteOnly)).
  - apply sample_valid. reflexivity.
  - reflexivity.
  - vm_compute. reflexivity.
  - reflexivity.
Defined.

End VoteMore.

(** ** The migration: when the queries are accepted, and what they leave *)
Module MigrationMore.
Import Migration MigrationSamples MigrationOrder.

(** X8: [up] is accepted only if the [User] table exists and has no trigger
    named [update_User_updatedAt]; on a schema without a function named
    [set_updatedAt] these two conditions are also enough.  An accepted [up]
    changes no row, no other function and no other trigger. *)
Theorem up_accepted_when pg :
  (is_Some (up pg) →
   is_Some (tables pg !! "User") ∧ ¬ has_trigger "update_User_updatedAt" "User" pg)
  ∧ (¬ has_function "set_updatedAt" pg →
     is_Some (tables pg !! "User") →
     ¬ has_trigger "update_User_updatedAt" "User" pg →
     is_Some (up pg))
  ∧ ∀ pg1, up pg = Some pg1 →
      tables pg1 = tables pg
      ∧ (∀ name, name ≠ "set_updatedAt" → functions pg1 !! name = functions pg !! name)
      ∧ (∀ key, key ≠ ("User", "update_User_updatedAt") →
                triggers pg1 !! key = triggers pg !! key).
Proof.
  split; [|split].
  - intros [pg1 Hup]. apply MigrationFacts.up_inv in Hup as (Htable & Hnone & _).
    split; [done|]. unfold has_trigger. rewrite Hnone. by intros [? ?].
  - intros _ Htable Hnone. apply MigrationFacts.up_total; [done|].
    unfold has_trigger in Hnone.
    destruct (triggers pg !! ("User", "update_User_updatedAt")); [|done].
    exfalso. apply Hnone. by eexists.
  - intros pg1 Hup. apply MigrationFacts.up_inv in Hup as (_ & _ & ->). simpl.
    split; [done|]. split.
    + intros name Hname. by apply lookup_insert_ne.
    + intros key Hkey. by apply lookup_insert_ne.
Qed.

(** X9: [up] cannot be run twice: the second run is rejected, because
    [CREATE TRIGGER] finds the trigger of the first. *)
Theorem up_twice_is_rejected pg pg1 :
  up pg = Some pg1 → up pg1 = None.
Proof.
  intros Hup. apply MigrationFacts.up_inv in Hup as (_ & _ & ->).
  unfold up, create_or_replace_function, create_trigger. simpl.
  rewrite !lookup_insert_eq. by destruct (tables pg !! "User").
Qed.

Lemma dependents_spec (name : string) (m : gmap (string * string) Trigger) :
  existsb (uses_function name) (map_to_list m) = false
  ↔ ∀ key tg, m !! key = Some tg → tg_function tg ≠ name.
Proof.
  split.
  - intros Hex key tg Hin Huses.
    assert (existsb (uses_function name) (map_to_list m) = true); [|congruence].
    apply existsb_exists. exists (key, tg). split.
    + by apply list_elem_of_In, elem_of_map_to_list.
    + unfold uses_function. simpl. by apply String.eqb_eq.
  - intros Hall. destruct (existsb _ _) eqn:Hex; [|done].
    apply existsb_exists in Hex as ([key tg] & Hin & Huses).
    apply list_elem_of_In, elem_of_map_to_list in Hin.
    unfold uses_function in Huses. simpl in Huses. apply String.eqb_eq in Huses.
    by destruct (Hall key tg Hin).
Qed.

(** X10: [down] is accepted exactly when the trigger and the function exist
    and no other trigger uses the function. *)
Theorem down_accepted_iff pg :
  is_Some (down pg)
  ↔ has_trigger "update_User_updatedAt" "User" pg
    ∧ has_function "set_updatedAt" pg
    ∧ ∀ key tg, triggers pg !! key = Some tg → tg_function tg = "set_updatedAt" →
                key = ("User", "update_User_updatedAt").
Proof.
  unfold down, drop_trigger, drop_function, has_trigger, has_function. simpl.
  destruct (triggers pg !! ("User", "update_User_updatedAt")) as [t|] eqn:Htrig; simpl;
    [|split; [by intros [? ?]|by intros [[? ?] _]]].
  destruct (functions pg !! "set_updatedAt") as [f|] eqn:Hfun; simpl;
    [|split; [by intros [? ?]|by intros (_ & [? ?] & _)]].
  destruct (existsb _ _) eqn:Hex.
  - split; [by intros [? ?]|]. intros (_ & _ & Hall). exfalso.
    apply existsb_exists in Hex as ([key tg] & Hin & Huses).
    apply list_elem_of_In, elem_of_map_to_list in Hin.
    unfold uses_function in Huses. simpl in Huses. apply String.eqb_eq in Huses.
    apply lookup_delete_Some in Hin as [Hne Hin]. destruct Hne. symmetry. by apply (Hall key tg).
  - split; [|by eauto]. intros _. split; [by eexists|]. split; [by eexists|].
    intros key tg Hin Huses.
    destruct (decide (key = ("User", "update_User_updatedAt"))) as [|Hne]; [done|].
    exfalso. eapply (proj1 (dependents_spec _ _) Hex key tg); [|done].
    by rewrite lookup_delete_ne.
Qed.

(** X11: [down] undoes one [up] only: run a second time, or on a schema that
    never saw [up], it is rejected. *)
Theorem down_needs_up pg :
  (∀ pg2, down pg = Some pg2 → down pg2 = None)
  ∧ (pre_migration pg → down pg = None).
Proof.
  split.
  - intros pg2. unfold down, drop_trigger. simpl.
    destruct (triggers pg !! ("User", "update_User_updatedAt")); simpl; [|done].
    unfold drop_function. simpl.
    destruct (functions pg !! "set_updatedAt"); [|done].
    destruct (existsb _ _); [done|]. intros [= <-]. simpl.
    by rewrite lookup_delete_eq.
  - intros [_ _ _ Hnone]. unfold down, drop_trigger. by rewrite Hnone.
Qed.

(** X12: whenever [up] and then [down] are accepted, the rows and the
    triggers are as before [up], and the functions are those before [up]
    without [set_updatedAt]: a function of that name that was there before
    the migration is dropped, not restored. *)
Theorem up_down_drops_function pg pg1 pg2 :
  up pg = Some pg1 →
  down pg1 = Some pg2 →
  tables pg2 = tables pg
  ∧ triggers pg2 = triggers pg
  ∧ functions pg2 = delete "set_updatedAt" (functions pg).
Proof.
  intros Hup Hdown. apply MigrationFacts.up_inv in Hup as (_ & Hnone & ->).
  revert Hdown. unfold down, drop_trigger. simpl. rewrite lookup_insert_eq. simpl.
  unfold drop_function. simpl. rewrite lookup_insert_eq.
  destruct (existsb _ _); [done|]. intros [= <-]. simpl.
  split; [done|]. split.
  - by rewrite delete_insert_eq, delete_id.
  - by rewrite delete_insert_eq.
Qed.

Lemma triggers_of_other_table pg pg1 table :
  up pg = Some pg1 →
  table ≠ "User" →
  before_update_triggers table pg1 = before_update_triggers table pg.
Proof.
  intros Hup Htable. apply MigrationFacts.up_inv in Hup as (_ & Hnone & ->).
  unfold before_update_triggers. simpl.
  assert (filter (fires_on_update table)
            (map_to_list (<[("User", "update_User_updatedAt")
                            := mkTrigger BEFORE UPDATE "set_updatedAt"]> (triggers pg)))
          ≡ₚ filter (fires_on_update table) (map_to_list (triggers pg))) as Hperm.
  { rewrite map_to_list_insert by done. rewrite filter_cons_False; [done|].
    intros [Ht _]. simpl in Ht. congruence. }
  apply (Sorted_unique_strong name_le).
  - intros [[t1 n1] tg1] [[t2 n2] tg2] H1 H2 Hle Hge.
    rewrite merge_sort_Permutation in H1, H2. rewrite Hperm in H1.
    apply list_elem_of_filter in H1 as [[Ht1 _] H1], H2 as [[Ht2 _] H2].
    apply elem_of_map_to_list in H1, H2. simpl in *. subst t1 t2.
    unfold name_le in Hle, Hge. simpl in *. apply Is_true_true in Hle, Hge.
    pose proof (String.leb_antisym _ _ Hle Hge). subst n2. congruence.
  - apply Sorted_merge_sort; apply _.
  - apply Sorted_merge_sort; apply _.
  - by rewrite !merge_sort_Permutation.
Qed.

(** X13: the migration concerns [User] only.  On a schema that had no
    function [set_updatedAt], an UPDATE of any other table stores after [up]
    exactly the rows it would have stored before. *)
Theorem other_tables_are_unaffected pg pg1 table now set where_ :
  up pg = Some pg1 →
  catalog_closed pg →
  functions pg !! "set_updatedAt" = None →
  table ≠ "User" →
  (∀ old, update_row now pg1 table set where_ old = update_row now pg table set where_ old)
  ∧ tables <$> update now table set where_ pg1 = tables <$> update now table set where_ pg.
Proof.
  intros Hup Hclosed Hnofun Htable.
  pose proof (triggers_of_other_table pg pg1 table Hup Htable) as Htg.
  assert (∀ old, update_row now pg1 table set where_ old
                 = update_row now pg table set where_ old) as Hrow.
  { intros old. unfold update_row. rewrite Htg.
    destruct (where_ old); [|done].
    assert (∀ l acc, Forall (λ entry, entry ∈ map_to_list (triggers pg)) l →
              foldl (fire now pg1 old) acc l = foldl (fire now pg old) acc l) as Hfold.
    { induction l as [|[key tg] l IH]; intros acc Hall; [done|].
      apply Forall_cons in Hall as [Hin Hall]. simpl. rewrite <- (IH _ Hall). f_equal.
      unfold fire. destruct acc as [new|]; [|done]. simpl.
      apply elem_of_map_to_list in Hin. destruct (Hclosed _ _ Hin) as [f Hf].
      apply MigrationFacts.up_inv in Hup as (_ & _ & ->). simpl.
      rewrite lookup_insert_ne; [done|]. intros Heq. rewrite <- Heq in Hf. congruence. }
    rewrite Hfold; [done|]. apply Forall_forall. intros entry Hin.
    unfold before_update_triggers in Hin. rewrite merge_sort_Permutation in Hin.
    by apply list_elem_of_filter in Hin as [_ Hin]. }
  split; [done|].
  unfold update. apply MigrationFacts.up_inv in Hup as (_ & _ & Hpg1).
  replace (tables pg1) with (tables pg) by (by rewrite Hpg1).
  destruct (tables pg !! table) as [rows|]; [|done]. simpl. do 2 f_equal.
  apply map_ext. intros old. apply Hrow.
Qed.

Lemma other_tables_witness :
  (∀ old, update_row 100 (mkPg (<["set_updatedAt" := set_updatedAt]> (functions pg_team))
                               (<[("User", "update_User_updatedAt")
                                  := mkTrigger BEFORE UPDATE "set_updatedAt"]>
                                  (triggers pg_team))
                               (tables pg_team))
                     "Team" [] (λ _, true) old
          = update_row 100 pg_team "Team" [] (λ _, true) old)
  ∧ tables <$> update 100 "Team" [] (λ _, true)
                 (mkPg (<["set_updatedAt" := set_updatedAt]> (functions pg_team))
                       (<[("User", "update_User_updatedAt")
                          := mkTrigger BEFORE UPDATE "set_updatedAt"]> (triggers pg_team))
                       (tables pg_team))
    = tables <$> update 100 "Team" [] (λ _, true) pg_team.
Proof.
  apply (other_tables_are_unaffected pg_team).
  - vm_compute. reflexivity.
  - intros key tg Hin. simpl in Hin.
    apply lookup_singleton_Some in Hin as [_ <-]. vm_compute. by eexists.
  - vm_compute. reflexivity.
  - discriminate.
Defined.

Example stale_function_is_lost :
  ∃ pg1 pg2, up pg_stale = Some pg1 ∧ down pg1 = Some pg2
             ∧ functions pg_stale !! "set_updatedAt" ≠ None
             ∧ functions pg2 !! "set_updatedAt" = None.
Proof. do 2 eexists. repeat split; try reflexivity. by vm_compute. Qed.

Lemma up_twice_witness : up pg0_up = None.
Proof. apply (up_twice_is_rejected pg0 pg0_up). vm_compute. reflexivity. Defined.

Lemma up_down_witness :
  tables pg0 = tables pg_stale
  ∧ triggers pg0 = triggers pg_stale
  ∧ functions pg0 = delete "set_updatedAt" (functions pg_stale).
Proof.
  apply (up_down_drops_function pg_stale pg0_up pg0); vm_compute; reflexivity.
Defined.

End MigrationMore.

(** ** useSpotlightColumns: when a column is given up, and what fits *)
Module SpotlightMore.
Import Spotlight.

Lemma maxColumns_three C width :
  0 < C → (maxColumns C width = 3 ↔ 3 * C ≤ width).
Proof.
  intros HC. unfold maxColumns, maxColumnsInRef, maxColumnsLargeScreen, minColumns,
    Js.floor_div.
  pose proof (Z.div_le_lower_bound width C 3 HC).
  pose proof (Z.div_lt_upper_bound width C 3 HC).
  lia.
Qed.

Lemma maxColumns_fits C width :
  0 < C → C ≤ width → maxColumns C width * C ≤ width.
Proof.
  intros HC Hw. unfold maxColumns, maxColumnsInRef, maxColumnsLargeScreen, minColumns,
    Js.floor_div.
  pose proof (Z.div_le_lower_bound width C 1 HC).
  pose proof (Z.mul_div_le width C HC).
  nia.
Qed.

Lemma groupsPerColumn_small C width groupsCount :
  groupsPerColumn C width groupsCount < 2 ↔ groupsCount ≤ maxColumns C width.
Proof.
  pose proof (SpotlightFacts.maxColumns_range C width) as Hmax.
  unfold groupsPerColumn, Js.ceil_div.
  assert (maxColumns C width = 1 ∨ maxColumns C width = 2 ∨ maxColumns C width = 3)
    as [-> | [-> | ->]] by lia; Z.div_mod_to_equations; lia.
Qed.

Lemma given_up_cases C width groupsCount :
  0 < C →
  0 < width →
  2 < groupsCount →
  (columnsCount C width groupsCount = maxColumns C width - 1
   ↔ groupsCount = 3 ∧ 3 * C ≤ width)
  ∧ (¬ (groupsCount = 3 ∧ 3 * C ≤ width) →
     columnsCount C width groupsCount = maxColumns C width).
Proof.
  intros HC Hw Hg.
  pose proof (SpotlightFacts.maxColumns_range C width) as Hmax.
  pose proof (maxColumns_three C width HC) as H3.
  pose proof (groupsPerColumn_small C width groupsCount) as Hgpc.
  unfold columnsCount, minColumns, minGroupsPerColumn.
  destruct (groupsPerColumn C width groupsCount <? 2) eqn:Hlt; simpl.
  - apply Z.ltb_lt in Hlt.
    destruct (maxColumns C width =? 1) eqn:H1; simpl.
    + apply Z.eqb_eq in H1. lia.
    + apply Z.eqb_neq in H1. lia.
  - apply Z.ltb_ge in Hlt. lia.
Qed.

(** X14: with more than two groups, a column is given up in one situation
    only: there are exactly three groups and three cards fit side by side;
    two columns are then used.  Otherwise every column that fits, up to
    three, is used. *)
Theorem column_given_up_iff C width groupsCount :
  0 < C →
  0 < width →
  2 < groupsCount →
  (columnsCount C width groupsCount = maxColumns C width - 1
   ↔ groupsCount = 3 ∧ 3 * C ≤ width)
  ∧ (¬ (groupsCount = 3 ∧ 3 * C ≤ width) →
     columnsCount C width groupsCount = maxColumns C width).
Proof. apply given_up_cases. Qed.

(** X15: with more than two groups there are always fewer columns than
    groups, so that the fullest column holds at least two. *)
Theorem fewer_columns_than_groups C width groupsCount :
  0 < C →
  0 < width →
  2 < groupsCount →
  columnsCount C width groupsCount < groupsCount
  ∧ 2 ≤ Js.ceil_div groupsCount (columnsCount C width groupsCount).
Proof.
  intros HC Hw Hg.
  pose proof (SpotlightFacts.columnsCount_range C width groupsCount) as Hcc.
  pose proof (SpotlightFacts.maxColumns_range C width) as Hmax.
  destruct (given_up_cases C width groupsCount HC Hw Hg) as [Hiff Helse].
  assert (columnsCount C width groupsCount < groupsCount) as Hlt.
  { destruct (decide (groupsCount = 3 ∧ 3 * C ≤ width)) as [Hyes|Hno].
    - apply Hiff in Hyes. lia.
    - specialize (Helse Hno).
      destruct (decide (groupsCount = 3)) as [->|]; [|lia].
      pose proof (maxColumns_three C width HC). lia. }
  split; [done|]. unfold Js.ceil_div.
  assert (columnsCount C width groupsCount = 1 ∨ columnsCount C width groupsCount = 2
          ∨ columnsCount C width groupsCount = 3) as [Heq|[Heq|Heq]] by lia;
    rewrite Heq in *; Z.div_mod_to_equations; lia.
Qed.

(** X16: when at least one card fits, the columns set fit side by side in
    the container; a narrower container still gets its one column. *)
Theorem columns_fit C width groupsCount st cols :
  0 < C →
  0 < width →
  columns (getColumns C (Some width) groupsCount st) = Some cols →
  (C ≤ width → Z.of_nat (length cols) * C ≤ width)
  ∧ (width < C → cols = [0]).
Proof.
  intros HC Hw. unfold getColumns.
  replace (width =? 0) with false by (symmetry; apply Z.eqb_neq; lia).
  destruct (groupsCount <=? 2) eqn:Hg; simpl; intros [= <-].
  - simpl. split; [lia|done].
  - pose proof (SpotlightFacts.columnsCount_range C width groupsCount) as Hcc.
    pose proof (SpotlightFacts.maxColumns_range C width) as Hmax.
    rewrite SpotlightFacts.keys_length by lia.
    assert (columnsCount C width groupsCount ≤ maxColumns C width) as Hle.
    { unfold columnsCount. destruct (_ && _); lia. }
    split.
    + intros HCw. pose proof (maxColumns_fits C width HC HCw). nia.
    + intros Hnarrow.
      assert (maxColumns C width = 1) as H1.
      { unfold maxColumns, maxColumnsInRef, maxColumnsLargeScreen, minColumns, Js.floor_div.
        rewrite Z.div_small by lia. lia. }
      assert (columnsCount C width groupsCount = 1) as -> by lia. reflexivity.
Qed.

(** X17: the [maxSpotlightColumns] written to the viewer record is the number
    of columns just set; with at most two groups nothing is written, so the
    record keeps whatever an earlier layout stored. *)
Theorem stored_maximum C width groupsCount st :
  0 < width →
  (groupsCount ≤ 2 →
   viewer_maxSpotlightColumns (getColumns C (Some width) groupsCount st)
   = viewer_maxSpotlightColumns st)
  ∧ (2 < groupsCount →
     ∃ cols, columns (getColumns C (Some width) groupsCount st) = Some cols
       ∧ viewer_maxSpotlightColumns (getColumns C (Some width) groupsCount st)
         = (λ _, Some (Z.of_nat (length cols))) <$> viewer_maxSpotlightColumns st).
Proof.
  intros Hw. unfold getColumns.
  replace (width =? 0) with false by (symmetry; apply Z.eqb_neq; lia).
  split.
  - intros Hg. by replace (groupsCount <=? 2) with true by (symmetry; apply Z.leb_le; lia).
  - intros Hg. replace (groupsCount <=? 2) with false by (symmetry; apply Z.leb_gt; lia).
    simpl. eexists. split; [done|].
    pose proof (SpotlightFacts.columnsCount_range C width groupsCount) as Hcc.
    rewrite SpotlightFacts.keys_length by lia.
    by destruct (viewer_maxSpotlightColumns st).
Qed.

(** X18: [getColumns] is run on every resize; running it again on the same
    width and group count changes nothing, and a wider container never gets
    fewer columns. *)
Theorem layout_is_stable C width width' groupsCount st st' cols cols' :
  0 < C →
  0 < width →
  width ≤ width' →
  columns (getColumns C (Some width) groupsCount st) = Some cols →
  columns (getColumns C (Some width') groupsCount st') = Some cols' →
  getColumns C (Some width) groupsCount (getColumns C (Some width) groupsCount st)
  = getColumns C (Some width) groupsCount st
  ∧ (length cols ≤ length cols')%nat.
Proof.
  intros HC Hw Hww. unfold getColumns.
  replace (width =? 0) with false by (symmetry; apply Z.eqb_neq; lia).
  replace (width' =? 0) with false by (symmetry; apply Z.eqb_neq; lia).
  destruct (groupsCount <=? 2); simpl; intros [= <-] [= <-]; [done|].
  split; [by destruct (viewer_maxSpotlightColumns st)|].
  pose proof (SpotlightFacts.columnsCount_range C width groupsCount) as Hcc.
  pose proof (SpotlightFacts.columnsCount_range C width' groupsCount) as Hcc'.
  enough (columnsCount C width groupsCount ≤ columnsCount C width' groupsCount) as Hle.
  { pose proof (SpotlightFacts.keys_length (columnsCount C width groupsCount)).
    pose proof (SpotlightFacts.keys_length (columnsCount C width' groupsCount)). lia. }
  assert (maxColumns C width ≤ maxColumns C width') as Hmono.
  { unfold maxColumns, maxColumnsInRef, Js.floor_div.
    pose proof (Z.div_le_mono width width' C HC Hww). lia. }
  pose proof (SpotlightFacts.maxColumns_range C width) as Hmax.
  pose proof (SpotlightFacts.maxColumns_range C width') as Hmax'.
  pose proof (groupsPerColumn_small C width groupsCount) as Hs.
  pose proof (groupsPerColumn_small C width' groupsCount) as Hs'.
  unfold columnsCount, minColumns, minGroupsPerColumn.
  destruct (groupsPerColumn C width groupsCount <? 2) eqn:H1;
    destruct (groupsPerColumn C width' groupsCount <? 2) eqn:H2;
    destruct (maxColumns C width =? 1) eqn:H3;
    destruct (maxColumns C width' =? 1) eqn:H4; simpl;
    rewrite ?Z.ltb_lt, ?Z.ltb_ge, ?Z.eqb_eq, ?Z.eqb_neq in *; lia.
Qed.

Lemma column_given_up_witness :
  (columnsCount 296 1000 3 = maxColumns 296 1000 - 1 ↔ 3 = 3 ∧ 3 * 296 ≤ 1000)
  ∧ (¬ (3 = 3 ∧ 3 * 296 ≤ 1000) → columnsCount 296 1000 3 = maxColumns 296 1000).
Proof. apply (column_given_up_iff 296 1000 3); lia. Defined.

Lemma fewer_columns_witness :
  columnsCount 296 1000 7 < 7 ∧ 2 ≤ Js.ceil_div 7 (columnsCount 296 1000 7).
Proof. apply (fewer_columns_than_groups 296 1000 7); lia. Defined.

Lemma columns_fit_witness :
  (296 ≤ 700 → Z.of_nat (length [0; 1]) * 296 ≤ 700) ∧ (700 < 296 → [0; 1] = [0]).
Proof.
  apply (columns_fit 296 700 5 (mkHookState None None) [0; 1]); [lia|lia|reflexivity].
Defined.

Lemma stored_maximum_witness :
  (2 ≤ 2 →
   viewer_maxSpotlightColumns (getColumns 296 (Some 1000) 2 (mkHookState None (Some (Some 3))))
   = viewer_maxSpotlightColumns (mkHookState None (Some (Some 3))))
  ∧ (2 < 2 →
     ∃ cols, columns (getColumns 296 (Some 1000) 2 (mkHookState None (Some (Some 3))))
             = Some cols
       ∧ viewer_maxSpotlightColumns
           (getColumns 296 (Some 1000) 2 (mkHookState None (Some (Some 3))))
         = (λ _, Some (Z.of_nat (length cols)))
             <$> viewer_maxSpotlightColumns (mkHookState None (Some (Some 3)))).
Proof. apply (stored_maximum 296 1000 2 (mkHookState None (Some (Some 3)))); lia. Defined.

Lemma layout_is_stable_witness :
  getColumns 296 (Some 700) 5 (getColumns 296 (Some 700) 5 (mkHookState None (Some None)))
  = getColumns 296 (Some 700) 5 (mkHookState None (Some None))
  ∧ (length [0; 1] ≤ length [0; 1; 2])%nat.
Proof.
  apply (layout_is_stable 296 700 1000 5 (mkHookState None (Some None))
           (mkHookState None None) [0; 1] [0; 1; 2]); try lia; reflexivity.
Defined.

(** The stored maximum of a three-column layout survives a layout of two groups. *)
Example stale_maximum :
  getColumns 296 (Some 1000) 2 (getColumns 296 (Some 1000) 9 (mkHookState None (Some None)))
  = mkHookState (Some [0]) (Some (Some 3)).
Proof. reflexivity. Qed.

End SpotlightMore.

(** ** PhaseItemEditor: the cards in flight and the editing indicator *)
Module PhaseItemEditorFacts.
Import JsArray PhaseItemEditor.

Lemma findIndex_from_none {A} (p : A → bool) l i :
  Forall (λ x, p x = false) l → findIndex_from p l i = -1.
Proof.
  revert i. induction l as [|x l IH]; intros i Hall; simpl; [done|].
  apply Forall_cons in Hall as [-> Hall]. by apply IH.
Qed.

Lemma findIndex_from_first {A} (p : A → bool) l1 x l2 i :
  Forall (λ y, p y = false) l1 → p x = true →
  findIndex_from p (l1 ++ x :: l2) i = i + Z.of_nat (length l1).
Proof.
  revert i. induction l1 as [|y l1 IH]; intros i Hall Hx; simpl.
  - rewrite Hx. lia.
  - apply Forall_cons in Hall as [-> Hall]. rewrite IH by done. lia.
Qed.

Lemma slice_before {A} (l1 : list A) x l2 :
  slice (l1 ++ x :: l2) 0 (Some (Z.of_nat (length l1))) = l1.
Proof.
  unfold slice, clamp. rewrite length_app. simpl.
  destruct (Z.ltb_spec (Z.of_nat (length l1)) 0) as [Hneg|_]; [lia|].
  replace (Z.to_nat (Z.min 0 (Z.of_nat (length l1 + S (length l2))))) with 0%nat by lia.
  replace (Z.to_nat (Z.max (Z.min (Z.of_nat (length l1))
                              (Z.of_nat (length l1 + S (length l2)))
                            - Z.min 0 (Z.of_nat (length l1 + S (length l2)))) 0))
    with (length l1) by lia.
  rewrite drop_0. by rewrite take_app_length.
Qed.

Lemma slice_after {A} (l1 : list A) x l2 :
  slice (l1 ++ x :: l2) (Z.of_nat (length l1) + 1) None = l2.
Proof.
  unfold slice, clamp. rewrite length_app. simpl.
  destruct (Z.ltb_spec (Z.of_nat (length l1) + 1) 0) as [Hneg|_]; [lia|].
  replace (Z.to_nat (Z.min (Z.of_nat (length l1) + 1) (Z.of_nat (length l1 + S (length l2)))))
    with (length (l1 ++ [x])) by (rewrite length_app; simpl; lia).
  replace (l1 ++ x :: l2)%list with ((l1 ++ [x]) ++ l2)%list by (by rewrite <- app_assoc).
  rewrite drop_app_length. apply take_ge. lia.
Qed.

Lemma slice_all {A} (l : list A) : slice l 0 None = l.
Proof.
  unfold slice, clamp. simpl.
  replace (Z.to_nat (Z.min 0 (Z.of_nat (length l)))) with 0%nat by lia.
  rewrite drop_0. apply take_ge. lia.
Qed.

Lemma slice_but_last {A} (l : list A) :
  slice l 0 (Some (-1)) = take (length l - 1) l.
Proof.
  unfold slice, clamp. simpl.
  replace (Z.to_nat (Z.min 0 (Z.of_nat (length l)))) with 0%nat by lia.
  rewrite drop_0. f_equal. lia.
Qed.

Section Facts.

Context {Num EditorState : Type}.
Variable createWithContent : string → EditorState.
Variable emptyEditor : EditorState.
Variable hasText : EditorState → bool.
Variable serialize : EditorState → string.
Variable convertToTaskContent : string → string.

Local Abbreviation Card := (@ReflectColumnCardInFlight Num EditorState).
Local Abbreviation handleSubmit := (handleSubmit createWithContent emptyEditor).
Local Abbreviation launched := (@launched Num EditorState createWithContent).

Lemma no_key_no_match k (l : list Card) :
  Forall (λ c, key c ≠ k) l → Forall (λ c, hasKey k c = false) l.
Proof.
  intros Hall. eapply Forall_impl; [exact Hall|]. intros c Hc. by apply String.eqb_neq.
Qed.

Lemma remove_first k (current : list Card) :
  (Forall (λ c, key c ≠ k) current → removeCardInFlight k current = [])
  ∧ ∀ l1 c l2, current = (l1 ++ c :: l2)%list →
      Forall (λ c', key c' ≠ k) l1 → key c = k →
      removeCardInFlight k current
      = match (l1 ++ l2)%list with
        | [] => [TerminatePortal; SetCardsInFlight []]
        | next => [SetCardsInFlight next]
        end.
Proof.
  unfold removeCardInFlight, findIndex. split.
  - intros Hnone. by rewrite findIndex_from_none by by apply no_key_no_match.
  - intros l1 c l2 -> Hl1 Hc.
    rewrite findIndex_from_first;
      [|by apply no_key_no_match|by apply String.eqb_eq].
    rewrite Z.add_0_l.
    replace (Z.of_nat (length l1) =? -1) with false by (symmetry; apply Z.eqb_neq; lia).
    unfold withoutIndex. simpl. rewrite slice_before, slice_after.
    by destruct (l1 ++ l2)%list.
Qed.

(** X19: [removeCardInFlight] takes out the first card with the key and
    nothing else, and closes the portal exactly when that was the last card;
    without a card of that key it does nothing at all. *)
Theorem removeCardInFlight_spec k (current : list Card) :
  (Forall (λ c, key c ≠ k) current → removeCardInFlight k current = [])
  ∧ ∀ l1 c l2, current = (l1 ++ c :: l2)%list →
      Forall (λ c', key c' ≠ k) l1 → key c = k →
      removeCardInFlight k current
      = match (l1 ++ l2)%list with
        | [] => [TerminatePortal; SetCardsInFlight []]
        | next => [SetCardsInFlight next]
        end.
Proof. apply remove_first. Qed.

Lemma land_first k card box (l1 : list Card) c l2 :
  Forall (λ c', key c' ≠ k) l1 →
  key c = k →
  onAnimationFrame k card (Some box) (l1 ++ c :: l2)
  = [ SetCardsInFlight (l1 ++ landing card box :: l2); ScheduleRemoval k 500 ]
  ∧ onAnimationFrame k card None (l1 ++ c :: l2) = []
  ∧ key (landing card box) = key card
  ∧ isStart (landing card box) = false.
Proof.
  intros Hl1 Hc. unfold onAnimationFrame, withLanded, findIndex.
  rewrite findIndex_from_first;
    [|by apply no_key_no_match|by apply String.eqb_eq].
  rewrite Z.add_0_l. by rewrite slice_before, slice_after.
Qed.

(** X20: the animation-frame callback puts the landing card in the place of
    the first card with the key, leaves the others where they are and
    schedules the removal after the flight time; without a stack element it
    does nothing. *)
Theorem onAnimationFrame_lands k card box (l1 : list Card) c l2 :
  Forall (λ c', key c' ≠ k) l1 →
  key c = k →
  onAnimationFrame k card (Some box) (l1 ++ c :: l2)
  = [ SetCardsInFlight (l1 ++ landing card box :: l2); ScheduleRemoval k 500 ]
  ∧ onAnimationFrame k card None (l1 ++ c :: l2) = []
  ∧ key (landing card box) = key card
  ∧ isStart (landing card box) = false.
Proof. apply land_first. Qed.

(** X21: the callback does not check that the card is still there.  When no
    card has the key, [findIndex] gives [-1] and the two slices are all but
    the last card and the whole list: the list set is those, with the landing
    card between them. *)
Theorem onAnimationFrame_without_card k card box (current : list Card) :
  Forall (λ c, key c ≠ k) current →
  onAnimationFrame k card (Some box) current
  = [ SetCardsInFlight (take (length current - 1) current ++ landing card box :: current);
      ScheduleRemoval k 500 ].
Proof.
  intros Hnone. unfold onAnimationFrame, withLanded, findIndex.
  rewrite findIndex_from_none by by apply no_key_no_match.
  simpl. by rewrite slice_but_last, slice_all.
Qed.

(** X22: one flight, from submit to removal.  With a key no card in flight
    has, and each step reading the list the step before set: [handleSubmit]
    appends the launched card, the animation frame replaces it by the landing
    card, and the removal gives back the list as it was before the submit,
    closing the portal if that list is empty. *)
Theorem flight_round_trip props env k box stack :
  phaseEditorBBox env = Some box →
  Forall (λ c, key c ≠ k) (cardsInFlight env) →
  handleSubmit props env k
  = ([ SubmitMutation;
       CreateReflectionMutation
         (mkInput k (props_meetingId props) (props_promptId props) (nextSortOrder env));
       OpenPortal;
       SetCardsInFlight (cardsInFlight env ++ [launched k box]);
       RequestAnimationFrame k (launched k box);
       SetEditorState emptyEditor ], Finished)
  ∧ onAnimationFrame k (launched k box) (Some stack) (cardsInFlight env ++ [launched k box])
    = [ SetCardsInFlight (cardsInFlight env ++ [landing (launched k box) stack]);
        ScheduleRemoval k 500 ]
  ∧ removeCardInFlight k (cardsInFlight env ++ [landing (launched k box) stack])
    = match cardsInFlight env with
      | [] => [TerminatePortal; SetCardsInFlight []]
      | before => [SetCardsInFlight before]
      end.
Proof.
  intros Hbox Hfresh. split; [|split].
  - unfold PhaseItemEditor.handleSubmit. by rewrite Hbox.
  - by destruct (land_first k (launched k box) stack (cardsInFlight env)
                   (launched k box) [] Hfresh eq_refl) as [-> _].
  - destruct (remove_first k
                (cardsInFlight env ++ [landing (launched k box) stack])) as [_ Hrem].
    rewrite (Hrem (cardsInFlight env) (landing (launched k box) stack) [] eq_refl Hfresh eq_refl).
    by rewrite app_nil_r.
Qed.


Lemma sentFlags_app (l1 l2 : list (@Effect Num EditorState)) :
  sentFlags (l1 ++ l2) = (sentFlags l1 ++ sentFlags l2)%list.
Proof.
  induction l1 as [|e l1 IH]; simpl; [done|]. destruct e; simpl; by rewrite ?IH.
Qed.

Lemma steps_alternate props (es : list EditorEvent) :
  ∀ st, (timerPending st = true → isEditing st = true) →
  alternating (negb (isEditing st))
              (sentFlags (steps (Num:=Num) (EditorState:=EditorState) props st es).1)
  ∧ (timerPending (steps (Num:=Num) (EditorState:=EditorState) props st es).2 = true →
     isEditing (steps (Num:=Num) (EditorState:=EditorState) props st es).2 = true).
Proof.
  induction es as [|e es IH]; intros [editing pending] Hinv; simpl in *; [done|].
  rewrite sentFlags_app.
  destruct e, editing, pending; simpl in *;
    try (by discriminate (Hinv eq_refl));
    first [ by apply (IH (mkEditing true true))
          | by apply (IH (mkEditing false false))
          | by apply (IH (mkEditing true false))
          | (split; [split; [done|]|]);
            first [ by apply (IH (mkEditing true true))
                  | by apply (IH (mkEditing false false)) ] ].
Qed.

(** X24: whatever the order of focus, key, blur and idle-timeout events, the
    server is told [isEditing] true and false in strict alternation, starting
    with true; and an idle timer is pending only while editing. *)
Theorem editing_flags_alternate props (es : list EditorEvent) :
  alternating true
    (sentFlags (steps (Num:=Num) (EditorState:=EditorState) props initial es).1)
  ∧ (timerPending (steps (Num:=Num) (EditorState:=EditorState) props initial es).2 = true →
     isEditing (steps (Num:=Num) (EditorState:=EditorState) props initial es).2 = true).
Proof. by apply (steps_alternate props es initial). Qed.

End Facts.

(** *** On sample cards *)

Import PhaseItemEditorSamples.

Lemma onAnimationFrame_lands_witness :
  onAnimationFrame "B" cardB (Some (mkBBox 30 40)) ([cardA] ++ cardB :: [])
  = [ SetCardsInFlight ([cardA] ++ landing cardB (mkBBox 30 40) :: []);
      ScheduleRemoval "B" 500 ]
  ∧ onAnimationFrame "B" cardB None ([cardA] ++ cardB :: []) = []
  ∧ key (landing cardB (mkBBox 30 40)) = key cardB
  ∧ isStart (landing cardB (mkBBox 30 40)) = false.
Proof.
  apply (onAnimationFrame_lands "B" cardB (mkBBox 30 40) [cardA] cardB []).
  - repeat constructor. discriminate.
  - reflexivity.
Defined.

Lemma onAnimationFrame_without_card_witness :
  onAnimationFrame "B" cardB (Some (mkBBox 30 40)) [cardA]
  = [ SetCardsInFlight (take (length [cardA] - 1) [cardA]
                        ++ landing cardB (mkBBox 30 40) :: [cardA]);
      ScheduleRemoval "B" 500 ].
Proof.
  apply (onAnimationFrame_without_card "B" cardB (mkBBox 30 40) [cardA]).
  repeat constructor. discriminate.
Defined.

Lemma flight_round_trip_witness :
  handleSubmit (λ k, k) "" (mkProps "m1" "p1") env0 "B"
  = ([ SubmitMutation;
       CreateReflectionMutation (mkInput "B" "m1" "p1" 7);
       OpenPortal;
       SetCardsInFlight ([cardA] ++ [launched (λ k, k) "B" (mkBBox 10 20)]);
       RequestAnimationFrame "B" (launched (λ k, k) "B" (mkBBox 10 20));
       SetEditorState "" ], Finished)
  ∧ onAnimationFrame "B" (launched (λ k, k) "B" (mkBBox 10 20)) (Some (mkBBox 30 40))
      ([cardA] ++ [launched (λ k, k) "B" (mkBBox 10 20)])
    = [ SetCardsInFlight ([cardA] ++ [landing (launched (λ k, k) "B" (mkBBox 10 20))
                                          (mkBBox 30 40)]);
        ScheduleRemoval "B" 500 ]
  ∧ removeCardInFlight "B"
      ([cardA] ++ [landing (launched (λ k, k) "B" (mkBBox 10 20)) (mkBBox 30 40)])
    = [SetCardsInFlight [cardA]].
Proof.
  apply (flight_round_trip (λ k, k) "" (mkProps "m1" "p1") env0 "B" (mkBBox 10 20)
           (mkBBox 30 40)).
  - reflexivity.
  - repeat constructor. discriminate.
Defined.

(** The card that was not there: the list doubles around the landing card. *)
Example landing_on_a_missing_card :
  onAnimationFrame "B" cardB (Some (mkBBox 30 40)) [cardA; cardA]
  = [ SetCardsInFlight [cardA; landing cardB (mkBBox 30 40); cardA; cardA];
      ScheduleRemoval "B" 500 ].
Proof. reflexivity. Qed.

Example focus_type_idle_type_blur :
  sentFlags (steps (Num:=Z) (EditorState:=string) (mkProps "m1" "p1") initial
               [Focus; KeyBinding; IdleTimeout; KeyBinding; Blur; Blur; IdleTimeout]).1
  = [true; false; true; false].
Proof. reflexivity. Qed.

End PhaseItemEditorFacts.

(** ** StageTimerModalEndTimeSlackToggle: what is shown and what a click does *)
Module SlackToggleMore.
Import SlackToggle SlackToggleView.

(** X25: the block is never empty.  The Slack row is hidden exactly when
    Mattermost is active and Slack is not, and then the Mattermost note is
    shown; a row that is shown has its checkbox at the toggle state. *)
Theorem something_is_shown (f : Facilitator) :
  (buttonRow (render f) = None
   ↔ slackIsActive f = false ∧ mattermostIsActive f = true)
  ∧ (buttonRow (render f) = None → mattermostNote (render f) = true)
  ∧ (∀ active, buttonRow (render f) = Some active → active = slackToggleActive f).
Proof.
  unfold render, noActiveIntegrations. simpl.
  destruct (slackIsActive f), (mattermostIsActive f); simpl;
    (split; [split; [done|by intros [? ?]]|]); (split; [done|]);
    by intros active [= <-].
Qed.

(** X26: a click sends the mutation exactly when Slack is active and nothing
    is in flight, and opens the OAuth window for the facilitator's team
    exactly when Slack is not active, in flight or not; it never does both,
    and with Slack active and a submission in flight it does nothing. *)
Theorem click_effects (f : Facilitator) (submitting : bool) :
  (sendsMutation (onClick f submitting) = true
   ↔ slackIsActive f = true ∧ submitting = false)
  ∧ (OpenOAuth (teamId f) ∈ onClick f submitting ↔ slackIsActive f = false)
  ∧ (onClick f submitting = [] ↔ slackIsActive f = true ∧ submitting = true)
  ∧ (slackIsActive f = false → onClick f submitting = [OpenOAuth (teamId f)]).
Proof.
  unfold onClick, slackIsActive, sendsMutation.
  destruct (slack (integrations f)) as [s|]; [destruct (slack_isActive s)|];
    destruct submitting; simpl;
    (split; [|split; [|split; [|done]]]); split; intros H;
    try done;
    try (by destruct H);
    try (apply list_elem_of_In in H; simpl in H; by intuition);
    try (apply list_elem_of_In; simpl; tauto).
Qed.

Example mattermost_only :
  render (mkFacilitator (mkIntegrations (Some (mkMattermost true)) None) "team1")
  = mkView None true.
Proof. reflexivity. Qed.

Example nothing_connected :
  render (mkFacilitator (mkIntegrations None None) "team1") = mkView (Some false) false
  ∧ onClick (mkFacilitator (mkIntegrations None None) "team1") true = [OpenOAuth "team1"].
Proof. split; reflexivity. Qed.

End SlackToggleMore.
